(** * wal-g: configuration and assembly core ([internal/configure.go])

    A shallow embedding of the resolution functions of
    [internal/configure.go] together with the properties of the
    specification that concern them.

    Conventions of the embedding:
    - a Go result pair [(T, error)] is a pair [option T * option error]
      ([None] is Go's [nil]); named results are threaded explicitly;
    - the settings source is a finite map from setting names to values;
    - process-wide variables ([DiskLimiter], [NetworkLimiter]) are an
      explicit state record that [ConfigureLimiters] transforms;
    - calls into a storage adapter are recorded in a call trace, so that
      "which adapter was tried" is observable;
    - functions of the Go standard library are modelled from their
      documented behaviour ([strconv]) or taken as parameters
      ([filepath.Join], [os.Stat]). *)

From Stdlib Require Import ZArith Lia Ascii String.
From stdpp Require Import base strings list gmap.

Local Open Scope Z_scope.
Local Open Scope string_scope.

(** ** Errors *)

(** The two causes a [*strconv.NumError] can carry. *)
Inductive NumErrorCause := ErrSyntax | ErrRange.

(** Error values.  [errorf] is a leaf error with a message
    ([errors.Errorf]); [wrap] is [errors.Wrap]/[errors.Wrapf];
    [NumError] is [*strconv.NumError]; the last two are the struct types
    declared in [configure.go], each embedding an inner error. *)
Inductive error :=
| errorf (msg : string)
| wrap (cause : error) (msg : string)
| NumError (func num : string) (cause : NumErrorCause)
| UnconfiguredStorageError (e : error)
| UnknownCompressionMethodError (e : error).

(** [errors.Cause]: strip the wrappers added by [errors.Wrap]. *)
Fixpoint Cause (e : error) : error :=
  match e with
  | wrap c _ => Cause c
  | _ => e
  end.

(** [fmt]'s [%v] verb on a [[]string]: the elements separated by single
    spaces, inside square brackets. *)
Fixpoint join_sp (l : list string) : string :=
  match l with
  | [] => ""
  | [x] => x
  | x :: rest => x +:+ " " +:+ join_sp rest
  end.

Definition fmt_v (l : list string) : string := "[" +:+ join_sp l +:+ "]".

Definition NewUnconfiguredStorageError (storagePrefixVariants : list string) : error :=
  UnconfiguredStorageError
    (errorf ("No storage is configured now, please set one of following settings: "
             +:+ fmt_v storagePrefixVariants)).

Definition NewUnknownCompressionMethodError (CompressingAlgorithms : list string) : error :=
  UnknownCompressionMethodError
    (errorf ("Unknown compression method, supported methods are: "
             +:+ fmt_v CompressingAlgorithms)).

(** ** The parts of [strconv] the file uses *)

Module strconv.

(** [strconv.ParseBool]: exactly twelve spellings are accepted. *)
Definition ParseBool (str : string) : bool * option error :=
  if bool_decide (str ∈ ["1"; "t"; "T"; "true"; "TRUE"; "True"]) then (true, None)
  else if bool_decide (str ∈ ["0"; "f"; "F"; "false"; "FALSE"; "False"]) then (false, None)
  else (false, Some (NumError "ParseBool" str ErrSyntax)).

Definition digit (c : ascii) : option Z :=
  let n := Z.of_N (N_of_ascii c) in
  if bool_decide (48 <= n <= 57) then Some (n - 48) else None.

Definition maxUint64 : Z := 2 ^ 64 - 1.

(** The digit loop of [ParseUint] in base 10 with [bitSize] 64, entered
    with the value [n] read so far.  A character that is not a decimal
    digit ends the scan with a syntax error; a value that leaves the
    [uint64] range ends it with a range error and the value
    [maxUint64], whatever follows.  [cutoff] is [maxUint64/10 + 1], the
    least [n] for which [n*10] overflows; the sum [n*10 + d] is compared
    on unbounded integers, where the source detects the wrap-around of
    the [uint64] sum. *)
Fixpoint ParseUint_scan (n : Z) (s : string) : Z * option NumErrorCause :=
  match s with
  | EmptyString => (n, None)
  | String c rest =>
      match digit c with
      | None => (0, Some ErrSyntax)
      | Some d =>
          let cutoff := maxUint64 / 10 + 1 in
          if bool_decide (cutoff <= n) then (maxUint64, Some ErrRange)
          else
            let n1 := n * 10 + d in
            if bool_decide (maxUint64 < n1) then (maxUint64, Some ErrRange)
            else ParseUint_scan n1 rest
      end
  end.

(** [strconv.ParseUint(s, 10, 64)], as value and cause of failure. *)
Definition ParseUint (s : string) : Z * option NumErrorCause :=
  match s with
  | EmptyString => (0, Some ErrSyntax)
  | _ => ParseUint_scan 0 s
  end.

Definition MaxInt64 : Z := 2 ^ 63 - 1.
Definition MinInt64 : Z := - 2 ^ 63.

(** [strconv.ParseInt(s, 10, 64)]: an optional sign, then
    [ParseUint] on the rest.  A syntax error of [ParseUint] is returned
    at once; after a range error, or a value outside the [int64] range,
    the nearest bound is returned next to a range error. *)
Definition ParseInt (s : string) : Z * option error :=
  match s with
  | EmptyString => (0, Some (NumError "ParseInt" s ErrSyntax))
  | String c rest =>
      let neg := bool_decide (c = "-"%char) in
      let body := if bool_decide (c = "+"%char) || neg then rest else s in
      let '(un, err) := ParseUint body in
      match err with
      | Some ErrSyntax => (0, Some (NumError "ParseInt" s ErrSyntax))
      | _ =>
          let cutoff := 2 ^ 63 in
          if negb neg && bool_decide (cutoff <= un)
          then (cutoff - 1, Some (NumError "ParseInt" s ErrRange))
          else if neg && bool_decide (cutoff < un)
          then (- cutoff, Some (NumError "ParseInt" s ErrRange))
          else ((if neg then - un else un), None)
      end
  end.

End strconv.

(** ** Machine integers *)

(** Two's-complement wrap-around of Go's [int64] arithmetic. *)
Definition wrap64 (z : Z) : Z := (z + 2 ^ 63) mod 2 ^ 64 - 2 ^ 63.

Definition add64 (a b : Z) : Z := wrap64 (a + b).

(** ** Data model *)

(** A [crypto.Crypter] as produced by the three constructors of the
    [openpgp] package; the value records which constructor built it and
    from which arguments. *)
Inductive Crypter :=
| CrypterFromArmoredKey (armoredKey passphrase : string)
| CrypterFromArmoredKeyPath (path passphrase : string)
| CrypterFromKeyRingID (keyRingID passphrase : string).

(** The conversion [float64(z)] of an [int64], which [rate.Limit(z)]
    performs: [z] rounded to 53 significant bits, ties to even.  The
    result is an integer for every [int64], so it is kept as one: below
    [2^53] in magnitude it is [z] itself, above it the low [e] bits are
    rounded away. *)
Definition float64_of_int64 (z : Z) : Z :=
  let a := Z.abs z in
  if bool_decide (a < 2 ^ 53) then z
  else
    let e := Z.log2 a - 52 in
    let q := a / 2 ^ e in
    let r := a mod 2 ^ e in
    let half := 2 ^ (e - 1) in
    let q :=
      if bool_decide (half < r) || (bool_decide (r = half) && Z.odd q)
      then q + 1 else q in
    Z.sgn z * (q * 2 ^ e).

(** A [*rate.Limiter]: [rate.NewLimiter(r, b)] stores its two arguments.
    [limit] is the value of the [float64] rate [r], [burst] the [int]
    burst [b]. *)
Record Limiter := NewLimiter { limit : Z; burst : Z }.

(** The two process-wide limiter variables; [None] is the unset
    (unlimited) state. *)
Record Limiters := { DiskLimiter : option Limiter; NetworkLimiter : option Limiter }.

(** The calls [ConfigureFolder] makes into an adapter, each tagged with
    the adapter's activation-setting name: its prefix preprocessor on
    the raw activation value, its settings loader, and its folder
    constructor on the prefix. *)
Inductive Call :=
| CallPrefixPreprocessor (prefixName raw : string)
| CallLoadSettings (prefixName : string)
| CallConfigureFolder (prefixName prefix : string).

Section Model.

(** Opaque handles of the external collaborators. *)
Variables Folder Compressor DataFolder : Type.

(** Modelled from the spec: the storage adapter descriptor
    [{activationSettingName, prefixPreprocessor, settingsLoader,
    folderConstructor}]; the Go struct is not among the sources.  The
    settings loader reads the settings source, which it receives here as
    its argument. *)
Record StorageAdapter := {
  prefixName : string;
  prefixPreprocessor : option (string -> string);
  loadSettings : gmap string string -> gmap string string * option error;
  configureFolder : string -> gmap string string -> option Folder * option error
}.

(** Modelled from the spec: the uploader aggregate
    [{Compressor, Storage Folder, Delta Data Folder (optional),
    delta-usage flag}] that [NewUploader] builds from its four
    arguments; the Go constructor is not among the sources. *)
Record Uploader := NewUploader {
  UploaderCompressor : option Compressor;
  UploaderFolder : option Folder;
  UploaderDeltaDataFolder : option DataFolder;
  UploaderUseWalDelta : bool
}.

(** The settings source. *)
Variable settings : gmap string string.

(** Modelled from the spec: the settings source's
    [Lookup(name) -> (value, found)]; its Go definition is not among
    the sources. *)
Definition LookupValue (key : string) : option string := settings !! key.

(** Modelled from the spec: the settings source's
    [GetOrEmpty(name) -> value], the empty string when the setting is
    not found; its Go definition is not among the sources. *)
Definition GetSettingValue (key : string) : string :=
  default "" (LookupValue key).

(** *** Rate limiters *)

(** [DatabasePageSize] is declared outside the sources. *)
Variable DatabasePageSize : Z.

(** A constant expression: Go evaluates it exactly. *)
Definition DefaultDataBurstRateLimit : Z := 8 * DatabasePageSize.

(** [int] is taken to be 64 bits wide, so [int(x)] of an [int64] is [x];
    the sum [limit + DefaultDataBurstRateLimit] is an [int64] addition,
    and [rate.Limit(limit)] is the conversion to [float64]. *)
Definition ConfigureLimiters (g : Limiters) : Limiters * option error :=
  let diskLimitStr := GetSettingValue "WALG_DISK_RATE_LIMIT" in
  let disk :=
    if bool_decide (diskLimitStr ≠ "") then
      let '(diskLimit, err) := strconv.ParseInt diskLimitStr in
      match err with
      | Some e => inl (wrap e "failed to parse WALG_DISK_RATE_LIMIT")
      | None =>
          inr {| DiskLimiter :=
                   Some (NewLimiter (float64_of_int64 diskLimit)
                           (add64 diskLimit DefaultDataBurstRateLimit));
                 NetworkLimiter := NetworkLimiter g |}
      end
    else inr g in
  match disk with
  | inl e => (g, Some e)
  | inr g =>
      let netLimitStr := GetSettingValue "WALG_NETWORK_RATE_LIMIT" in
      if bool_decide (netLimitStr ≠ "") then
        let '(netLimit, err) := strconv.ParseInt netLimitStr in
        match err with
        | Some e => (g, Some (wrap e "failed to parse WALG_NETWORK_RATE_LIMIT"))
        | None =>
            ({| DiskLimiter := DiskLimiter g;
                NetworkLimiter :=
                  Some (NewLimiter (float64_of_int64 netLimit)
                          (add64 netLimit DefaultDataBurstRateLimit)) |},
             None)
        end
      else (g, None)
  end.

(** *** Storage adapter resolution *)

(** The registry, in precedence order. *)
Variable StorageAdapters : list StorageAdapter.

(** The [range] loop of [ConfigureFolder] over the adapters still to be
    visited, with the names skipped so far.  The second component is the
    trace of adapter calls made. *)
Fixpoint ConfigureFolder_range (adapters : list StorageAdapter)
    (skippedPrefixes : list string) : (option Folder * option error) * list Call :=
  match adapters with
  | [] => ((None, Some (NewUnconfiguredStorageError skippedPrefixes)), [])
  | adapter :: rest =>
      let prefix := GetSettingValue (prefixName adapter) in
      if bool_decide (prefix = "") then
        ConfigureFolder_range rest (skippedPrefixes ++ [prefixName adapter])
      else
        let '(prefix, preprocessed) :=
          match prefixPreprocessor adapter with
          | Some f => (f prefix, [CallPrefixPreprocessor (prefixName adapter) prefix])
          | None => (prefix, [])
          end in
        let '(adapterSettings, err) := loadSettings adapter settings in
        match err with
        | Some e =>
            ((None, Some e),
             (preprocessed ++ [CallLoadSettings (prefixName adapter)])%list)
        | None =>
            (configureFolder adapter prefix adapterSettings,
             (preprocessed
              ++ [CallLoadSettings (prefixName adapter);
                  CallConfigureFolder (prefixName adapter) prefix])%list)
        end
  end.

Definition ConfigureFolder : (option Folder * option error) * list Call :=
  ConfigureFolder_range StorageAdapters [].

(** Vocabulary for stating the resolution policy: no adapter of a list
    has a non-empty activation setting; the prefix handed to an adapter's
    folder constructor; the call of its prefix preprocessor, if it has
    one; and what resolution yields once it stops at [adapter], namely
    its loader's error or its folder constructor's result, with the
    calls made on it. *)
Definition allSkipped (adapters : list StorageAdapter) : Prop :=
  Forall (λ adapter, GetSettingValue (prefixName adapter) = "") adapters.

Definition activationPrefix (adapter : StorageAdapter) : string :=
  let raw := GetSettingValue (prefixName adapter) in
  from_option (λ f, f raw) raw (prefixPreprocessor adapter).

Definition preprocessorCall (adapter : StorageAdapter) : list Call :=
  match prefixPreprocessor adapter with
  | Some _ =>
      [CallPrefixPreprocessor (prefixName adapter)
         (GetSettingValue (prefixName adapter))]
  | None => []
  end.

Definition activate (adapter : StorageAdapter)
    : (option Folder * option error) * list Call :=
  match loadSettings adapter settings with
  | (_, Some e) =>
      ((None, Some e),
       (preprocessorCall adapter ++ [CallLoadSettings (prefixName adapter)])%list)
  | (adapterSettings, None) =>
      (configureFolder adapter (activationPrefix adapter) adapterSettings,
       (preprocessorCall adapter
        ++ [CallLoadSettings (prefixName adapter);
            CallConfigureFolder (prefixName adapter) (activationPrefix adapter)])%list)
  end.

(** *** Delta data folder *)

Definition DefaultDataFolderPath : string := "/tmp".

(** [filepath.Join] on two elements, and the error result of [os.Stat]
    on a path ([None] is a [nil] error). *)
Variable Join : string -> string -> string.
Variable Stat : string -> option error.

Definition getDataFolderPath : string :=
  let dataFolderPath :=
    match LookupValue "PGDATA" with
    | None => DefaultDataFolderPath
    | Some pgdata =>
        let dataFolderPath := Join pgdata "pg_wal" in
        match Stat dataFolderPath with
        | Some _ =>
            let dataFolderPath := Join pgdata "pg_xlog" in
            match Stat dataFolderPath with
            | Some _ => DefaultDataFolderPath
            | None => dataFolderPath
            end
        | None => dataFolderPath
        end
    end in
  Join dataFolderPath "walg_data".

(** The fallback chain in the words of the specification: the candidate
    sub-paths in probing order, and the first candidate under the base
    directory that exists. *)
Definition candidateSubPaths : list string := ["pg_wal"; "pg_xlog"].

Definition pathExists (p : string) : bool :=
  match Stat p with None => true | Some _ => false end.

Definition getDataFolderPath_spec : string :=
  let base :=
    match LookupValue "PGDATA" with
    | None => DefaultDataFolderPath
    | Some pgdata =>
        default DefaultDataFolderPath
          (List.find pathExists (Join pgdata <$> candidateSubPaths))
    end in
  Join base "walg_data".

(** [NewDiskDataFolder] is declared outside the sources. *)
Variable NewDiskDataFolder : string -> option DataFolder * option error.

(** The part of [configureWalDeltaUsage] after the setting was read,
    entered with the named results [useWalDelta] set and
    [deltaDataFolder], [err] still [nil].  The warning written to the
    log when the folder cannot be opened is not modelled. *)
Definition configureWalDeltaUsage_folder (useWalDelta : bool)
    : bool * option DataFolder * option error :=
  if negb useWalDelta then (useWalDelta, None, None)
  else
    let dataFolderPath := getDataFolderPath in
    let '(deltaDataFolder, err) := NewDiskDataFolder dataFolderPath in
    match err with
    | Some _ => (false, deltaDataFolder, None)
    | None => (useWalDelta, deltaDataFolder, None)
    end.

Definition configureWalDeltaUsage : bool * option DataFolder * option error :=
  match LookupValue "WALG_USE_WAL_DELTA" with
  | Some useWalDeltaStr =>
      let '(useWalDelta, err) := strconv.ParseBool useWalDeltaStr in
      match err with
      | Some e => (false, None, Some (wrap e "failed to parse WALG_USE_WAL_DELTA"))
      | None => configureWalDeltaUsage_folder useWalDelta
      end
  | None => configureWalDeltaUsage_folder false
  end.

(** *** Compressor *)

(** The compressor registry, the list of its algorithm names and the
    default algorithm's name ([compression.Compressors],
    [compression.CompressingAlgorithms], [lz4.AlgorithmName]) are
    declared outside the sources. *)
Variable Compressors : gmap string Compressor.
Variable CompressingAlgorithms : list string.
Variable lz4_AlgorithmName : string.

Definition configureCompressor : option Compressor * option error :=
  let compressionMethod := GetSettingValue "WALG_COMPRESSION_METHOD" in
  let compressionMethod :=
    if bool_decide (compressionMethod = "") then lz4_AlgorithmName
    else compressionMethod in
  match Compressors !! compressionMethod with
  | None => (None, Some (NewUnknownCompressionMethodError CompressingAlgorithms))
  | Some c => (Some c, None)
  end.

(** *** Uploader assembly *)

Definition ConfigureUploader : option Uploader * option error :=
  let '(folder, err) := ConfigureFolder.1 in
  match err with
  | Some e => (None, Some (wrap e "failed to configure folder"))
  | None =>
      let '(compressor, err) := configureCompressor in
      match err with
      | Some e => (None, Some (wrap e "failed to configure compression"))
      | None =>
          let '(useWalDelta, deltaDataFolder, err) := configureWalDeltaUsage in
          match err with
          | Some e => (None, Some (wrap e "failed to configure WAL Delta usage"))
          | None =>
              (Some (NewUploader compressor folder deltaDataFolder useWalDelta), err)
          end
      end
  end.

(** *** Crypter resolution *)

(** The source reads the passphrase with [config.LookupValue] and the
    other settings with [LookupValue] and [GetSettingValue]; all three
    read the one settings source. *)
Definition ConfigureCrypter : option Crypter :=
  match LookupValue "WALG_PGP_KEY_PASSPHRASE" with
  | None => None
  | Some passphrase =>
      match LookupValue "WALG_PGP_KEY" with
      | Some armoredKey => Some (CrypterFromArmoredKey armoredKey passphrase)
      | None =>
          match LookupValue "WALG_PGP_KEY_PATH" with
          | Some armoredKeyPath =>
              Some (CrypterFromArmoredKeyPath armoredKeyPath passphrase)
          | None =>
              let keyRingID := GetSettingValue "WALE_GPG_KEY_ID" in
              if bool_decide (keyRingID ≠ "")
              then Some (CrypterFromKeyRingID keyRingID passphrase)
              else None
          end
      end
  end.

(** The precedence chain read with one notion of "present" for all four
    settings, namely that the lookup finds the setting. *)
Definition ConfigureCrypter_presence : option Crypter :=
  match LookupValue "WALG_PGP_KEY_PASSPHRASE" with
  | None => None
  | Some passphrase =>
      match LookupValue "WALG_PGP_KEY", LookupValue "WALG_PGP_KEY_PATH",
            LookupValue "WALE_GPG_KEY_ID" with
      | Some armoredKey, _, _ => Some (CrypterFromArmoredKey armoredKey passphrase)
      | None, Some armoredKeyPath, _ =>
          Some (CrypterFromArmoredKeyPath armoredKeyPath passphrase)
      | None, None, Some keyRingID => Some (CrypterFromKeyRingID keyRingID passphrase)
      | None, None, None => None
      end
  end.

(** *** Overwrite prevention and logging *)

Definition ConfigurePreventWalOverwrite : bool * option error :=
  let preventWalOverwriteStr := GetSettingValue "WALG_PREVENT_WAL_OVERWRITE" in
  if bool_decide (preventWalOverwriteStr ≠ "") then
    let '(preventWalOverwrite, err) := strconv.ParseBool preventWalOverwriteStr in
    match err with
    | Some e => (false, Some (wrap e "failed to parse WALG_PREVENT_WAL_OVERWRITE"))
    | None => (preventWalOverwrite, None)
    end
  else (false, None).

(** [tracelog.UpdateLogLevel] is declared outside the sources. *)
Variable UpdateLogLevel : string -> option error.

Definition ConfigureLogging : option error :=
  match LookupValue "WALG_LOG_LEVEL" with
  | Some logLevel => UpdateLogLevel logLevel
  | None => None
  end.

End Model.

(** The spellings [strconv.ParseBool] accepts, and the settings
    [ConfigureCrypter] reads. *)
Definition trueSpellings : list string := ["1"; "t"; "T"; "true"; "TRUE"; "True"].
Definition falseSpellings : list string := ["0"; "f"; "F"; "false"; "FALSE"; "False"].

Definition crypterSettingNames : list string :=
  ["WALG_PGP_KEY_PASSPHRASE"; "WALG_PGP_KEY"; "WALG_PGP_KEY_PATH"; "WALE_GPG_KEY_ID"].

(** The passphrase a Crypter was built with. *)
Definition crypterPassphrase (c : Crypter) : string :=
  match c with
  | CrypterFromArmoredKey _ passphrase
  | CrypterFromArmoredKeyPath _ passphrase
  | CrypterFromKeyRingID _ passphrase => passphrase
  end.

(** The method name [configureCompressor] looks up in the registry. *)
Definition compressionMethodOf (settings : gmap string string)
    (lz4_AlgorithmName : string) : string :=
  let compressionMethod := GetSettingValue settings "WALG_COMPRESSION_METHOD" in
  if bool_decide (compressionMethod = "") then lz4_AlgorithmName else compressionMethod.

Arguments prefixName {Folder} _.
Arguments prefixPreprocessor {Folder} _.
Arguments loadSettings {Folder} _ _.
Arguments configureFolder {Folder} _ _ _.
Arguments Build_StorageAdapter {Folder} _ _ _ _.
Arguments NewUploader {Folder Compressor DataFolder} _ _ _ _.
Arguments UploaderCompressor {Folder Compressor DataFolder} _.
Arguments UploaderFolder {Folder Compressor DataFolder} _.
Arguments UploaderDeltaDataFolder {Folder Compressor DataFolder} _.
Arguments UploaderUseWalDelta {Folder Compressor DataFolder} _.
Arguments ConfigureFolder_range {Folder} _ _ _.
Arguments ConfigureFolder {Folder} _ _.
Arguments allSkipped {Folder} _ _.
Arguments activationPrefix {Folder} _ _.
Arguments activate {Folder} _ _.
Arguments preprocessorCall {Folder} _ _.
Arguments configureWalDeltaUsage_folder {DataFolder} _ _ _ _ _.
Arguments configureWalDeltaUsage {DataFolder} _ _ _ _.
Arguments configureCompressor {Compressor} _ _ _ _.
Arguments ConfigureUploader {Folder Compressor DataFolder} _ _ _ _ _ _ _ _.

(** ** Concrete collaborators for the examples *)

Module Fixtures.

(** An adapter that loads its settings and builds the folder named by
    the prefix it is given. *)
Definition adapterOk (name : string) : StorageAdapter string :=
  {| prefixName := name;
     prefixPreprocessor := None;
     loadSettings := fun s => (s, None);
     configureFolder := fun prefix _ => (Some prefix, None) |}.

(** An adapter whose settings loader fails. *)
Definition adapterLoadFails (name : string) : StorageAdapter string :=
  {| prefixName := name;
     prefixPreprocessor := None;
     loadSettings := fun _ => (∅, Some (errorf ("cannot load settings of " +:+ name)));
     configureFolder := fun prefix _ => (Some prefix, None) |}.

(** An adapter whose folder constructor fails, and which rewrites the
    prefix first. *)
Definition adapterBuildFails (name : string) : StorageAdapter string :=
  {| prefixName := name;
     prefixPreprocessor := Some (fun prefix => "//" +:+ prefix);
     loadSettings := fun s => (s, None);
     configureFolder := fun prefix _ => (None, Some (errorf ("cannot open " +:+ prefix))) |}.

(** The registry [A, B, C]: [B]'s folder constructor fails; settings that
    activate [B] and [C] but not [A]; and settings that activate none of
    them, [A]'s being present with an empty value. *)
Definition registryABC : list (StorageAdapter string) :=
  [adapterOk "A_PREFIX"; adapterBuildFails "B_PREFIX"; adapterOk "C_PREFIX"].

Definition settingsBC : gmap string string :=
  <["B_PREFIX" := "bucket-b"]> (<["C_PREFIX" := "bucket-c"]> ∅).

Definition settingsNone : gmap string string :=
  <["A_PREFIX" := ""]> (<["WALG_COMPRESSION_METHOD" := "lz4"]> ∅).

(** What [filepath.Join] yields on two clean, non-empty elements. *)
Definition joinPlain (a b : string) : string := a +:+ "/" +:+ b.

(** A file system on which exactly the listed paths exist. *)
Definition statOf (present : list string) (p : string) : option error :=
  if bool_decide (p ∈ present) then None
  else Some (errorf ("stat " +:+ p +:+ ": no such file or directory")).

(** A disk on which no data folder can be opened, and one on which every
    data folder can. *)
Definition diskDenied (p : string) : option string * option error :=
  (None, Some (errorf ("mkdir " +:+ p +:+ ": permission denied"))).

Definition diskOk (p : string) : option string * option error := (Some p, None).


Definition compressors : gmap string string := {[ "lz4" := "lz4-compressor" ]}.

(** Crypter settings: a passphrase with an empty key-ring id; an empty
    passphrase with an empty inline key next to a key file. *)
Definition emptyRingSettings : gmap string string :=
  <["WALG_PGP_KEY_PASSPHRASE" := "pw"]> (<["WALE_GPG_KEY_ID" := ""]> ∅).

Definition emptyKeySettings : gmap string string :=
  <["WALG_PGP_KEY_PASSPHRASE" := ""]>
    (<["WALG_PGP_KEY" := ""]> (<["WALG_PGP_KEY_PATH" := "/k.asc"]> ∅)).

(** Uploader settings: adapter [A] active, with a use-delta value that
    is not a boolean spelling; and with delta usage switched on under a
    data directory. *)
Definition settingsDeltaMalformed : gmap string string :=
  <["A_PREFIX" := "bucket-a"]> (<["WALG_USE_WAL_DELTA" := "yes"]> ∅).

Definition settingsDeltaOn : gmap string string :=
  <["A_PREFIX" := "bucket-a"]>
    (<["WALG_USE_WAL_DELTA" := "true"]> (<["PGDATA" := "/var/lib/pg"]> ∅)).

(** Limiter settings: the largest rate [strconv.ParseInt] accepts. *)
Definition settingsMaxDiskRate : gmap string string :=
  <["WALG_DISK_RATE_LIMIT" := "9223372036854775807"]> ∅.

Definition noLimiters : Limiters := {| DiskLimiter := None; NetworkLimiter := None |}.

(** PostgreSQL's page size. *)
Definition pageSize : Z := 8192.

End Fixtures.

(** ** Properties of the standard-library models *)

Example ParseBool_True : strconv.ParseBool "True" = (true, None).
Proof. reflexivity. Qed.

Example ParseBool_yes :
  strconv.ParseBool "yes" = (false, Some (NumError "ParseBool" "yes" ErrSyntax)).
Proof. reflexivity. Qed.

Example ParseInt_neg : strconv.ParseInt "-42" = (-42, None).
Proof. reflexivity. Qed.

Example ParseInt_max :
  strconv.ParseInt "9223372036854775807" = (strconv.MaxInt64, None).
Proof. reflexivity. Qed.

Example ParseInt_over :
  (strconv.ParseInt "9223372036854775808").2
  = Some (NumError "ParseInt" "9223372036854775808" ErrRange).
Proof. reflexivity. Qed.

Example ParseInt_min :
  strconv.ParseInt "-9223372036854775808" = (strconv.MinInt64, None).
Proof. reflexivity. Qed.

Example ParseInt_sign_only :
  (strconv.ParseInt "+").2 = Some (NumError "ParseInt" "+" ErrSyntax).
Proof. reflexivity. Qed.

Example ParseInt_underscore :
  (strconv.ParseInt "1_000").2 = Some (NumError "ParseInt" "1_000" ErrSyntax).
Proof. reflexivity. Qed.

(** Go reports the first failure met while scanning: an overflow before
    a bad character is a range error. *)
Example ParseInt_overflow_then_letter :
  strconv.ParseInt "99999999999999999999x"
  = (strconv.MaxInt64, Some (NumError "ParseInt" "99999999999999999999x" ErrRange)).
Proof. reflexivity. Qed.

Example ParseInt_letter_then_overflow :
  strconv.ParseInt "9x9999999999999999999"
  = (0, Some (NumError "ParseInt" "9x9999999999999999999" ErrSyntax)).
Proof. reflexivity. Qed.

Example ParseUint_max :
  strconv.ParseUint "18446744073709551615" = (strconv.maxUint64, None).
Proof. reflexivity. Qed.

Example ParseUint_over :
  strconv.ParseUint "18446744073709551616" = (strconv.maxUint64, Some ErrRange).
Proof. reflexivity. Qed.

Lemma digit_range c d : strconv.digit c = Some d → 0 <= d <= 9.
Proof.
  unfold strconv.digit. case_bool_decide; [|discriminate]. intros [= <-]. lia.
Qed.

Lemma ParseUint_scan_value s :
  ∀ n v cause,
    0 <= n →
    strconv.ParseUint_scan n s = (v, cause) →
    0 <= v ∧ (cause = Some ErrRange → v = strconv.maxUint64).
Proof.
  induction s as [|c s IH]; simpl; intros n v cause Hn.
  - intros [= <- <-]. split; [done|discriminate].
  - destruct (strconv.digit c) as [d|] eqn:Hd.
    + apply digit_range in Hd.
      case_bool_decide.
      { intros [= <- <-]. split; [by vm_compute|done]. }
      case_bool_decide.
      { intros [= <- <-]. split; [by vm_compute|done]. }
      apply IH. lia.
    + intros [= <- <-]. split; [done|discriminate].
Qed.

Lemma ParseUint_value s v cause :
  strconv.ParseUint s = (v, cause) →
  0 <= v ∧ (cause = Some ErrRange → v = strconv.maxUint64).
Proof.
  destruct s as [|c s].
  - intros [= <- <-]. split; [done|discriminate].
  - apply ParseUint_scan_value. done.
Qed.

(** A successful parse yields a value in the [int64] range. *)
Lemma ParseInt_range s v :
  strconv.ParseInt s = (v, None) → strconv.MinInt64 <= v <= strconv.MaxInt64.
Proof.
  unfold strconv.ParseInt, strconv.MinInt64, strconv.MaxInt64.
  destruct s as [|c rest]; [discriminate|].
  set (neg := bool_decide (c = "-"%char)).
  set (body := if _ || neg then rest else String c rest).
  destruct (strconv.ParseUint body) as [un cause] eqn:Hun.
  apply ParseUint_value in Hun as [Hnn Hrange].
  destruct cause as [[|]|]; [discriminate| |].
  - rewrite (Hrange eq_refl). by destruct neg.
  - destruct neg; simpl.
    + case_bool_decide; [discriminate|]. intros [= <-]. lia.
    + case_bool_decide; [discriminate|]. intros [= <-]. lia.
Qed.

(** The conversion to [float64] is exact up to [2^53] in magnitude. *)
Lemma float64_of_int64_exact z : Z.abs z <= 2 ^ 53 → float64_of_int64 z = z.
Proof.
  intros Hz. unfold float64_of_int64. case_bool_decide as Hsmall; [done|].
  assert (z = 2 ^ 53 ∨ z = - 2 ^ 53) as [-> | ->] by lia; reflexivity.
Qed.

(** Over the [int64] range the conversion moves a value by at most
    [2^10], half the spacing of [float64] values below [2^64]. *)
Lemma float64_of_int64_error z :
  strconv.MinInt64 <= z <= strconv.MaxInt64 →
  Z.abs (float64_of_int64 z - z) <= 2 ^ 10.
Proof.
  unfold strconv.MinInt64, strconv.MaxInt64. intros Hz. unfold float64_of_int64.
  case_bool_decide as Hsmall; [rewrite Z.sub_diag; simpl; lia|].
  assert (2 ^ 53 <= Z.abs z <= 2 ^ 63) as Ha by lia.
  set (a := Z.abs z) in *.
  assert (53 <= Z.log2 a <= 63) as Hlog.
  { split.
    - rewrite <- (Z.log2_pow2 53) by lia. apply Z.log2_le_mono. lia.
    - rewrite <- (Z.log2_pow2 63) by lia. apply Z.log2_le_mono. lia. }
  set (e := Z.log2 a - 52) in *.
  assert (1 <= e <= 11) as He by lia.
  assert (2 ^ e = 2 * 2 ^ (e - 1)) as Hpow.
  { rewrite <- Z.pow_succ_r by lia. f_equal. lia. }
  assert (0 < 2 ^ (e - 1) <= 2 ^ 10) as Hhalf.
  { split; [apply Z.pow_pos_nonneg; lia|apply Z.pow_le_mono_r; lia]. }
  pose proof (Z.div_mod a (2 ^ e) ltac:(lia)) as Hdm.
  pose proof (Z.mod_pos_bound a (2 ^ e) ltac:(lia)) as Hr.
  set (q := a / 2 ^ e) in *. set (r := a mod 2 ^ e) in *.
  set (P := 2 ^ e) in *. set (half := 2 ^ (e - 1)) in *.
  assert (z = Z.sgn z * a) as Hsgn by (unfold a; lia).
  assert (Z.sgn z = 1 ∨ Z.sgn z = -1) as Hs by lia.
  repeat case_bool_decide; destruct (Z.odd q); simpl; destruct Hs as [Hs|Hs];
    rewrite Hs in *; nia.
Qed.

Example float64_of_int64_MaxInt64 : float64_of_int64 strconv.MaxInt64 = 2 ^ 63.
Proof. reflexivity. Qed.

Example float64_of_int64_MinInt64 : float64_of_int64 strconv.MinInt64 = - 2 ^ 63.
Proof. reflexivity. Qed.

Example float64_of_int64_tie_to_even :
  float64_of_int64 9007199254740993 = 9007199254740992
  ∧ float64_of_int64 9007199254740995 = 9007199254740996.
Proof. split; reflexivity. Qed.

Lemma wrap64_id z : - 2 ^ 63 <= z < 2 ^ 63 → wrap64 z = z.
Proof. intros H. unfold wrap64. rewrite Z.mod_small; lia. Qed.

Lemma wrap64_over z : 2 ^ 63 <= z < 2 ^ 64 + 2 ^ 63 → wrap64 z = z - 2 ^ 64.
Proof.
  intros H. unfold wrap64.
  replace (z + 2 ^ 63) with ((z - 2 ^ 63) + 1 * 2 ^ 64) by lia.
  rewrite Z.mod_add by lia. rewrite Z.mod_small; lia.
Qed.

(** ** Crypter resolution *)

Section CrypterFacts.

Variable settings : gmap string string.

(** The key-ring branch, by the shape of the looked-up value. *)
Lemma keyRing_absent_or_empty :
  LookupValue settings "WALE_GPG_KEY_ID" = None
  ∨ LookupValue settings "WALE_GPG_KEY_ID" = Some "" →
  GetSettingValue settings "WALE_GPG_KEY_ID" = "".
Proof. unfold GetSettingValue. by intros [-> | ->]. Qed.

Lemma ConfigureCrypter_inline passphrase armoredKey :
  LookupValue settings "WALG_PGP_KEY_PASSPHRASE" = Some passphrase →
  LookupValue settings "WALG_PGP_KEY" = Some armoredKey →
  ConfigureCrypter settings = Some (CrypterFromArmoredKey armoredKey passphrase).
Proof. intros Hp Hk. unfold ConfigureCrypter. by rewrite Hp, Hk. Qed.

Lemma ConfigureCrypter_path passphrase armoredKeyPath :
  LookupValue settings "WALG_PGP_KEY_PASSPHRASE" = Some passphrase →
  LookupValue settings "WALG_PGP_KEY" = None →
  LookupValue settings "WALG_PGP_KEY_PATH" = Some armoredKeyPath →
  ConfigureCrypter settings = Some (CrypterFromArmoredKeyPath armoredKeyPath passphrase).
Proof. intros Hp Hk Hf. unfold ConfigureCrypter. by rewrite Hp, Hk, Hf. Qed.

Lemma ConfigureCrypter_ring passphrase keyRingID :
  LookupValue settings "WALG_PGP_KEY_PASSPHRASE" = Some passphrase →
  LookupValue settings "WALG_PGP_KEY" = None →
  LookupValue settings "WALG_PGP_KEY_PATH" = None →
  LookupValue settings "WALE_GPG_KEY_ID" = Some keyRingID →
  keyRingID ≠ "" →
  ConfigureCrypter settings = Some (CrypterFromKeyRingID keyRingID passphrase).
Proof.
  intros Hp Hk Hf Hr Hne. unfold ConfigureCrypter, GetSettingValue.
  rewrite Hp, Hk, Hf, Hr. simpl. by rewrite bool_decide_true.
Qed.

Lemma ConfigureCrypter_none passphrase :
  LookupValue settings "WALG_PGP_KEY_PASSPHRASE" = Some passphrase →
  LookupValue settings "WALG_PGP_KEY" = None →
  LookupValue settings "WALG_PGP_KEY_PATH" = None →
  LookupValue settings "WALE_GPG_KEY_ID" = None
  ∨ LookupValue settings "WALE_GPG_KEY_ID" = Some "" →
  ConfigureCrypter settings = None.
Proof.
  intros Hp Hk Hf Hr. unfold ConfigureCrypter.
  rewrite Hp, Hk, Hf, (keyRing_absent_or_empty Hr). reflexivity.
Qed.

(** C3: without the passphrase setting [ConfigureCrypter] returns [nil],
    whatever the inline-key, key-file-path and key-ring-id settings
    hold. *)
Theorem ConfigureCrypter_no_passphrase :
  LookupValue settings "WALG_PGP_KEY_PASSPHRASE" = None →
  ConfigureCrypter settings = None.
Proof. intros Hp. unfold ConfigureCrypter. by rewrite Hp. Qed.

(** C4, amended: with the passphrase present, an inline key that is
    present wins over the other two sources; else a key-file path that
    is present wins over the key-ring id; else a key-ring id that is
    present with a non-empty value is used; else the result is [nil]. *)
Theorem ConfigureCrypter_precedence passphrase :
  LookupValue settings "WALG_PGP_KEY_PASSPHRASE" = Some passphrase →
  ConfigureCrypter settings =
    match LookupValue settings "WALG_PGP_KEY",
          LookupValue settings "WALG_PGP_KEY_PATH",
          LookupValue settings "WALE_GPG_KEY_ID" with
    | Some armoredKey, _, _ => Some (CrypterFromArmoredKey armoredKey passphrase)
    | None, Some armoredKeyPath, _ =>
        Some (CrypterFromArmoredKeyPath armoredKeyPath passphrase)
    | None, None, Some keyRingID =>
        if bool_decide (keyRingID = "") then None
        else Some (CrypterFromKeyRingID keyRingID passphrase)
    | None, None, None => None
    end.
Proof.
  intros Hp.
  destruct (LookupValue settings "WALG_PGP_KEY") as [k|] eqn:Hk.
  { by apply ConfigureCrypter_inline. }
  destruct (LookupValue settings "WALG_PGP_KEY_PATH") as [f|] eqn:Hf.
  { by apply ConfigureCrypter_path. }
  destruct (LookupValue settings "WALE_GPG_KEY_ID") as [r|] eqn:Hr.
  - case_bool_decide as Hempty.
    + subst r. apply (ConfigureCrypter_none _ Hp Hk Hf). by right.
    + by apply ConfigureCrypter_ring.
  - apply (ConfigureCrypter_none _ Hp Hk Hf). by left.
Qed.

(** C10: presence gates the passphrase, the inline key and the key-file
    path, while the key-ring id is gated by non-emptiness.  An empty
    passphrase still enables encryption; an empty inline key is used and
    shadows whatever key file is configured; an empty key-file path is
    used; an empty key-ring id counts as absent and gives [nil]. *)
Theorem ConfigureCrypter_presence_vs_nonempty passphrase :
  LookupValue settings "WALG_PGP_KEY_PASSPHRASE" = Some passphrase →
  (∀ armoredKey,
      passphrase = "" →
      LookupValue settings "WALG_PGP_KEY" = Some armoredKey →
      ConfigureCrypter settings = Some (CrypterFromArmoredKey armoredKey ""))
  ∧ (LookupValue settings "WALG_PGP_KEY" = Some "" →
     ConfigureCrypter settings = Some (CrypterFromArmoredKey "" passphrase)
     ∧ ∀ armoredKeyPath,
         ConfigureCrypter settings
         ≠ Some (CrypterFromArmoredKeyPath armoredKeyPath passphrase))
  ∧ (LookupValue settings "WALG_PGP_KEY" = None →
     LookupValue settings "WALG_PGP_KEY_PATH" = Some "" →
     ConfigureCrypter settings = Some (CrypterFromArmoredKeyPath "" passphrase))
  ∧ (LookupValue settings "WALG_PGP_KEY" = None →
     LookupValue settings "WALG_PGP_KEY_PATH" = None →
     LookupValue settings "WALE_GPG_KEY_ID" = Some "" →
     ConfigureCrypter settings = None).
Proof.
  intros Hp. split; [|split; [|split]].
  - intros k -> Hk. by apply ConfigureCrypter_inline.
  - intros Hk. split.
    + by apply ConfigureCrypter_inline.
    + intros f. rewrite (ConfigureCrypter_inline _ _ Hp Hk). discriminate.
  - intros Hk Hf. by apply ConfigureCrypter_path.
  - intros Hk Hf Hr. apply (ConfigureCrypter_none _ Hp Hk Hf). by right.
Qed.

End CrypterFacts.

(** Settings used by the examples of crypter resolution. *)
Example ConfigureCrypter_all_three :
  ConfigureCrypter
    (<["WALG_PGP_KEY_PASSPHRASE" := "pw"]>
       (<["WALG_PGP_KEY" := "KEY"]>
          (<["WALG_PGP_KEY_PATH" := "/k.asc"]> (<["WALE_GPG_KEY_ID" := "ABCD"]> ∅))))
  = Some (CrypterFromArmoredKey "KEY" "pw").
Proof. reflexivity. Qed.

Example ConfigureCrypter_path_then_ring :
  ConfigureCrypter
    (<["WALG_PGP_KEY_PASSPHRASE" := "pw"]>
       (<["WALG_PGP_KEY_PATH" := "/k.asc"]> (<["WALE_GPG_KEY_ID" := "ABCD"]> ∅)))
  = Some (CrypterFromArmoredKeyPath "/k.asc" "pw").
Proof. reflexivity. Qed.

Example ConfigureCrypter_ring_only :
  ConfigureCrypter
    (<["WALG_PGP_KEY_PASSPHRASE" := "pw"]> (<["WALE_GPG_KEY_ID" := "ABCD"]> ∅))
  = Some (CrypterFromKeyRingID "ABCD" "pw").
Proof. reflexivity. Qed.

(** C3 at settings holding all three key-material sources but no
    passphrase. *)
Lemma ConfigureCrypter_no_passphrase_witness :
  ConfigureCrypter
    (<["WALG_PGP_KEY" := "KEY"]>
       (<["WALG_PGP_KEY_PATH" := "/k.asc"]> (<["WALE_GPG_KEY_ID" := "ABCD"]> ∅)))
  = None.
Proof. apply ConfigureCrypter_no_passphrase. reflexivity. Defined.

(** C4 as stated fails when the key-ring id is present but empty: the
    lookup finds the setting, the presence reading builds a Crypter from
    it, and the code returns [nil]. *)
Lemma ConfigureCrypter_empty_ring_counterexample :
  LookupValue Fixtures.emptyRingSettings "WALE_GPG_KEY_ID" = Some ""
  ∧ ConfigureCrypter_presence Fixtures.emptyRingSettings
    = Some (CrypterFromKeyRingID "" "pw")
  ∧ ConfigureCrypter Fixtures.emptyRingSettings = None.
Proof. repeat split; reflexivity. Qed.

(** The amended C4 at settings holding only a passphrase and a key-ring
    id. *)
Lemma ConfigureCrypter_precedence_witness :
  ConfigureCrypter
    (<["WALG_PGP_KEY_PASSPHRASE" := "pw"]> (<["WALE_GPG_KEY_ID" := "ABCD"]> ∅))
  = Some (CrypterFromKeyRingID "ABCD" "pw").
Proof.
  exact (ConfigureCrypter_precedence
           (<["WALG_PGP_KEY_PASSPHRASE" := "pw"]> (<["WALE_GPG_KEY_ID" := "ABCD"]> ∅))
           "pw" eq_refl).
Defined.

(** C10 at settings with an empty passphrase. *)
Lemma ConfigureCrypter_presence_vs_nonempty_witness :
  ConfigureCrypter Fixtures.emptyKeySettings = Some (CrypterFromArmoredKey "" "").
Proof.
  exact (proj1 (ConfigureCrypter_presence_vs_nonempty Fixtures.emptyKeySettings ""
                  eq_refl)
           "" eq_refl eq_refl).
Defined.

(** ** Storage adapter resolution *)

Section FolderFacts.

Context {Folder : Type}.
Variable settings : gmap string string.

Lemma ConfigureFolder_range_skip (skipped rest : list (StorageAdapter Folder)) acc :
  allSkipped settings skipped →
  ConfigureFolder_range settings (skipped ++ rest) acc
  = ConfigureFolder_range settings rest (acc ++ (prefixName <$> skipped)).
Proof.
  intros Hall. revert acc.
  induction Hall as [|adapter skipped Hempty _ IH]; intros acc; simpl.
  - by rewrite app_nil_r.
  - rewrite Hempty. simpl. rewrite IH. by rewrite <- app_assoc.
Qed.

Lemma ConfigureFolder_range_hit (adapter : StorageAdapter Folder) rest acc :
  GetSettingValue settings (prefixName adapter) ≠ "" →
  ConfigureFolder_range settings (adapter :: rest) acc = activate settings adapter.
Proof.
  intros Hne. simpl. rewrite bool_decide_false by done.
  unfold activate, activationPrefix, preprocessorCall.
  destruct (prefixPreprocessor adapter); simpl;
    by destruct (loadSettings adapter settings) as [? [?|]].
Qed.

(** C1: resolution stops at the first adapter whose activation setting is
    non-empty.  The result and the calls made are those of that adapter
    alone: a failure of its settings loader or of its folder constructor
    is the result, and no adapter after it is called, whatever the later
    adapters and their settings are. *)
Theorem ConfigureFolder_first_match
    (skipped : list (StorageAdapter Folder)) adapter rest :
  allSkipped settings skipped →
  GetSettingValue settings (prefixName adapter) ≠ "" →
  ConfigureFolder settings (skipped ++ adapter :: rest) = activate settings adapter
  ∧ (∀ e, (loadSettings adapter settings).2 = Some e →
          ConfigureFolder settings (skipped ++ adapter :: rest)
          = ((None, Some e),
             (preprocessorCall settings adapter
              ++ [CallLoadSettings (prefixName adapter)])%list))
  ∧ (∀ adapterSettings,
        loadSettings adapter settings = (adapterSettings, None) →
        (ConfigureFolder settings (skipped ++ adapter :: rest)).1
        = configureFolder adapter (activationPrefix settings adapter) adapterSettings)
  ∧ (∀ call, call ∈ (ConfigureFolder settings (skipped ++ adapter :: rest)).2 →
             call = CallLoadSettings (prefixName adapter)
             ∨ (∃ prefix, call = CallConfigureFolder (prefixName adapter) prefix)
             ∨ (is_Some (prefixPreprocessor adapter)
                ∧ call = CallPrefixPreprocessor (prefixName adapter)
                           (GetSettingValue settings (prefixName adapter)))).
Proof.
  intros Hall Hne.
  assert (ConfigureFolder settings (skipped ++ adapter :: rest)
          = activate settings adapter) as Heq.
  { unfold ConfigureFolder. rewrite ConfigureFolder_range_skip by done.
    by apply ConfigureFolder_range_hit. }
  rewrite Heq. split; [done|]. unfold activate. split; [|split].
  - intros e He. destruct (loadSettings adapter settings) as [s [e'|]]; simpl in *.
    + by injection He as ->.
    + discriminate.
  - by intros s ->.
  - assert (∀ call, call ∈ preprocessorCall settings adapter →
              is_Some (prefixPreprocessor adapter)
              ∧ call = CallPrefixPreprocessor (prefixName adapter)
                         (GetSettingValue settings (prefixName adapter))) as Hpre.
    { intros call. unfold preprocessorCall.
      destruct (prefixPreprocessor adapter); [|by intros ?%elem_of_nil].
      rewrite list_elem_of_singleton. by intros ->. }
    intros call. destruct (loadSettings adapter settings) as [s [e'|]]; simpl;
      rewrite elem_of_app.
    + rewrite list_elem_of_singleton. intros [?%Hpre | ->]; auto.
    + rewrite !elem_of_cons, elem_of_nil. intros [?%Hpre | [->| [->|[]]]]; eauto.
Qed.

(** [fmt]'s rendering of the names is the standard library's
    [String.concat] with a single space. *)
Lemma join_sp_concat l : join_sp l = String.concat " " l.
Proof.
  induction l as [|x [|y l] IH]; [done..|].
  change (join_sp (x :: y :: l)) with (x +:+ " " +:+ join_sp (y :: l)).
  by rewrite IH.
Qed.

(** C5: when every adapter's activation setting is absent or empty, the
    result is the unconfigured-storage error, whose message enumerates
    the activation-setting names of all adapters, in registry order,
    separated by single spaces inside square brackets; and no adapter is
    called. *)
Theorem ConfigureFolder_unconfigured (StorageAdapters : list (StorageAdapter Folder)) :
  allSkipped settings StorageAdapters →
  ConfigureFolder settings StorageAdapters
  = ((None,
      Some (UnconfiguredStorageError
              (errorf
                 ("No storage is configured now, please set one of following settings: ["
                  +:+ String.concat " " (prefixName <$> StorageAdapters) +:+ "]")))),
     [])
  ∧ ConfigureFolder settings StorageAdapters
    = ((None, Some (NewUnconfiguredStorageError (prefixName <$> StorageAdapters))), []).
Proof.
  intros Hall.
  assert (ConfigureFolder settings StorageAdapters
          = ((None, Some (NewUnconfiguredStorageError (prefixName <$> StorageAdapters))),
             [])) as ->.
  { unfold ConfigureFolder.
    rewrite <- (app_nil_r StorageAdapters) at 1.
    by rewrite ConfigureFolder_range_skip. }
  split; [|done].
  unfold NewUnconfiguredStorageError, fmt_v. by rewrite join_sp_concat.
Qed.

End FolderFacts.

(** C1 on the registry [A, B, C] with the settings of [B] and [C]
    present: [B] is selected, its construction failure is the result, and
    [C] is never called. *)
Lemma ConfigureFolder_first_match_witness :
  ConfigureFolder Fixtures.settingsBC Fixtures.registryABC
  = ((None, Some (errorf "cannot open //bucket-b")),
     [CallPrefixPreprocessor "B_PREFIX" "bucket-b";
      CallLoadSettings "B_PREFIX";
      CallConfigureFolder "B_PREFIX" "//bucket-b"]).
Proof.
  refine (proj1 (ConfigureFolder_first_match Fixtures.settingsBC
                   [Fixtures.adapterOk "A_PREFIX"]
                   (Fixtures.adapterBuildFails "B_PREFIX")
                   [Fixtures.adapterOk "C_PREFIX"] _ _)).
  - repeat constructor.
  - vm_compute. discriminate.
Defined.

(** With [B] skipped as well, [C] is selected. *)
Example ConfigureFolder_selects_C :
  ConfigureFolder (<["C_PREFIX" := "bucket-c"]> ∅) Fixtures.registryABC
  = ((Some "bucket-c", None),
     [CallLoadSettings "C_PREFIX"; CallConfigureFolder "C_PREFIX" "bucket-c"]).
Proof. reflexivity. Qed.

(** A failing settings loader ends resolution before the folder
    constructor is called. *)
Example ConfigureFolder_loader_fails :
  ConfigureFolder Fixtures.settingsBC
    [Fixtures.adapterLoadFails "B_PREFIX"; Fixtures.adapterOk "C_PREFIX"]
  = ((None, Some (errorf "cannot load settings of B_PREFIX")),
     [CallLoadSettings "B_PREFIX"]).
Proof. reflexivity. Qed.

(** C5 on the registry [A, B, C] with no activation setting usable. *)
Lemma ConfigureFolder_unconfigured_witness :
  ConfigureFolder Fixtures.settingsNone Fixtures.registryABC
  = ((None,
      Some (UnconfiguredStorageError
              (errorf "No storage is configured now, please set one of following settings: [A_PREFIX B_PREFIX C_PREFIX]"))),
     []).
Proof.
  refine (proj1 (ConfigureFolder_unconfigured Fixtures.settingsNone
                   Fixtures.registryABC _)).
  repeat constructor.
Defined.

(** The message of that error lists the names in registry order. *)
Example NewUnconfiguredStorageError_message :
  NewUnconfiguredStorageError ["A_PREFIX"; "B_PREFIX"; "C_PREFIX"]
  = UnconfiguredStorageError
      (errorf "No storage is configured now, please set one of following settings: [A_PREFIX B_PREFIX C_PREFIX]").
Proof. reflexivity. Qed.

(** ** Delta data folder and uploader assembly *)

Lemma ParseBool_cases str :
  (∃ b, strconv.ParseBool str = (b, None))
  ∨ strconv.ParseBool str = (false, Some (NumError "ParseBool" str ErrSyntax)).
Proof.
  unfold strconv.ParseBool. repeat case_bool_decide; eauto.
Qed.

Section DeltaFacts.

Context {Folder Compressor DataFolder : Type}.
Variable settings : gmap string string.
Variable StorageAdapters : list (StorageAdapter Folder).
Variable Join : string → string → string.
Variable Stat : string → option error.
Variable NewDiskDataFolder : string → option DataFolder * option error.
Variable Compressors : gmap string Compressor.
Variable CompressingAlgorithms : list string.
Variable lz4_AlgorithmName : string.

Local Abbreviation dataFolderPath := (getDataFolderPath settings Join Stat).
Local Abbreviation deltaUsage :=
  (configureWalDeltaUsage settings Join Stat NewDiskDataFolder).
Local Abbreviation folder := (ConfigureFolder settings StorageAdapters).
Local Abbreviation compressor :=
  (configureCompressor settings Compressors CompressingAlgorithms lz4_AlgorithmName).
Local Abbreviation uploader :=
  (ConfigureUploader settings StorageAdapters Join Stat NewDiskDataFolder
     Compressors CompressingAlgorithms lz4_AlgorithmName).

(** C8: the delta folder path is [walg_data] under a base directory,
    which is the default temporary directory when [PGDATA] is not set,
    and otherwise the first of [PGDATA/pg_wal], [PGDATA/pg_xlog] on which
    [os.Stat] succeeds, or the default when it succeeds on neither. *)
Theorem getDataFolderPath_fallback_chain :
  dataFolderPath = getDataFolderPath_spec settings Join Stat
  ∧ (LookupValue settings "PGDATA" = None →
     dataFolderPath = Join "/tmp" "walg_data")
  ∧ (∀ pgdata,
       LookupValue settings "PGDATA" = Some pgdata →
       dataFolderPath =
         Join (if pathExists Stat (Join pgdata "pg_wal") then Join pgdata "pg_wal"
               else if pathExists Stat (Join pgdata "pg_xlog")
                    then Join pgdata "pg_xlog"
                    else "/tmp")
              "walg_data").
Proof.
  unfold getDataFolderPath, getDataFolderPath_spec, pathExists, DefaultDataFolderPath.
  destruct (LookupValue settings "PGDATA") as [pgdata|]; simpl.
  - split; [|split; [discriminate|]].
    + unfold pathExists.
      by destruct (Stat (Join pgdata "pg_wal")), (Stat (Join pgdata "pg_xlog")).
    + intros ? [= <-].
      by destruct (Stat (Join pgdata "pg_wal")), (Stat (Join pgdata "pg_xlog")).
  - split; [done|]. split; [done|discriminate].
Qed.

(** The folder step never yields an error, whatever the disk does. *)
Lemma configureWalDeltaUsage_folder_no_error useWalDelta :
  (configureWalDeltaUsage_folder settings Join Stat NewDiskDataFolder useWalDelta).2
  = None.
Proof.
  unfold configureWalDeltaUsage_folder.
  destruct useWalDelta; simpl; [|done].
  by destruct (NewDiskDataFolder dataFolderPath) as [? [?|]].
Qed.

(** The only error of the delta step is the wrapped parse error of a
    use-delta setting that is present. *)
Lemma configureWalDeltaUsage_error e :
  deltaUsage.2 = Some e ↔
  ∃ useWalDeltaStr,
    LookupValue settings "WALG_USE_WAL_DELTA" = Some useWalDeltaStr
    ∧ (strconv.ParseBool useWalDeltaStr).2
      = Some (NumError "ParseBool" useWalDeltaStr ErrSyntax)
    ∧ e = wrap (NumError "ParseBool" useWalDeltaStr ErrSyntax)
               "failed to parse WALG_USE_WAL_DELTA".
Proof.
  unfold configureWalDeltaUsage.
  destruct (LookupValue settings "WALG_USE_WAL_DELTA") as [str|].
  - destruct (ParseBool_cases str) as [[b Hb] | Hb]; rewrite Hb; simpl.
    + rewrite configureWalDeltaUsage_folder_no_error. split; [discriminate|].
      intros (? & [= <-] & Herr & _). rewrite Hb in Herr. discriminate.
    + split.
      * intros [= <-]. exists str. by rewrite Hb.
      * by intros (? & [= <-] & _ & ->).
  - rewrite configureWalDeltaUsage_folder_no_error. split; [discriminate|].
    intros (? & [=] & _).
Qed.

(** Assembly once folder and compressor are resolved. *)
Lemma ConfigureUploader_after_folder_and_compressor f c :
  folder.1 = (f, None) →
  compressor = (c, None) →
  uploader =
    match deltaUsage with
    | (_, _, Some e) => (None, Some (wrap e "failed to configure WAL Delta usage"))
    | (useWalDelta, deltaDataFolder, None) =>
        (Some (NewUploader c f deltaDataFolder useWalDelta), None)
    end.
Proof.
  intros Hf Hc. unfold ConfigureUploader. rewrite Hf, Hc.
  by destruct deltaUsage as [[? ?] [?|]].
Qed.

(** C2, amended: opening the delta folder never makes
    [ConfigureUploader] fail.  The delta step fails exactly when the
    use-delta setting is present with a value that [strconv.ParseBool]
    rejects; [ConfigureUploader] returns that error, wrapped as a delta
    failure, exactly when in addition folder resolution and compressor
    selection, which run first, have both succeeded; and when they have
    succeeded and the delta step does not fail, [ConfigureUploader]
    returns an uploader and no error. *)
Theorem ConfigureUploader_delta_errors :
  (∀ e, deltaUsage.2 = Some e ↔
        ∃ useWalDeltaStr,
          LookupValue settings "WALG_USE_WAL_DELTA" = Some useWalDeltaStr
          ∧ (strconv.ParseBool useWalDeltaStr).2
            = Some (NumError "ParseBool" useWalDeltaStr ErrSyntax)
          ∧ e = wrap (NumError "ParseBool" useWalDeltaStr ErrSyntax)
                     "failed to parse WALG_USE_WAL_DELTA")
  ∧ (∀ e, uploader.2 = Some (wrap e "failed to configure WAL Delta usage") ↔
          folder.1.2 = None ∧ compressor.2 = None ∧ deltaUsage.2 = Some e)
  ∧ (folder.1.2 = None →
     compressor.2 = None →
     deltaUsage.2 = None →
     uploader
     = (Some (NewUploader compressor.1 folder.1.1 deltaUsage.1.2 deltaUsage.1.1),
        None)).
Proof.
  split; [apply configureWalDeltaUsage_error|].
  unfold ConfigureUploader.
  destruct (folder.1) as [f [ef|]]; simpl.
  { split; [|by intros [=]]. intros e. split; [discriminate|by intros [[=] _]]. }
  destruct compressor as [c [ec|]]; simpl.
  { split; [|by intros _ [=]]. intros e. split; [discriminate|by intros (_ & [=] & _)]. }
  destruct deltaUsage as [[u d] [ed|]]; simpl.
  - split; [|by intros _ _ [=]]. intros e. split.
    + by intros [= ->].
    + by intros (_ & _ & [= ->]).
  - split; [|done]. intros e. split; [discriminate|by intros (_ & _ & [=])].
Qed.


(** The folder value that accompanies the error is passed through
    unchanged: the code clears the flag and the error only. *)
Lemma configureWalDeltaUsage_keeps_folder_value useWalDeltaStr d e :
  LookupValue settings "WALG_USE_WAL_DELTA" = Some useWalDeltaStr →
  strconv.ParseBool useWalDeltaStr = (true, None) →
  NewDiskDataFolder dataFolderPath = (d, Some e) →
  deltaUsage = (false, d, None).
Proof.
  intros Hset Hparse Hopen.
  unfold configureWalDeltaUsage, configureWalDeltaUsage_folder.
  rewrite Hset, Hparse. simpl. by rewrite Hopen.
Qed.

End DeltaFacts.

(** C2 as stated fails on a use-delta value that is not a boolean
    spelling: folder and compressor are resolved, and [ConfigureUploader]
    returns the error of the delta step. *)
Lemma ConfigureUploader_delta_counterexample :
  (ConfigureFolder Fixtures.settingsDeltaMalformed Fixtures.registryABC).1
  = (Some "bucket-a", None)
  ∧ configureCompressor Fixtures.settingsDeltaMalformed Fixtures.compressors
      ["lz4"] "lz4"
    = (Some "lz4-compressor", None)
  ∧ ConfigureUploader Fixtures.settingsDeltaMalformed Fixtures.registryABC
      Fixtures.joinPlain (Fixtures.statOf []) Fixtures.diskOk
      Fixtures.compressors ["lz4"] "lz4"
    = (None,
       Some (wrap (wrap (NumError "ParseBool" "yes" ErrSyntax)
                        "failed to parse WALG_USE_WAL_DELTA")
                  "failed to configure WAL Delta usage")).
Proof. repeat split; reflexivity. Qed.



(** The same settings on a disk that opens the folder. *)
Example ConfigureUploader_delta_on :
  ConfigureUploader Fixtures.settingsDeltaOn Fixtures.registryABC
    Fixtures.joinPlain (Fixtures.statOf ["/var/lib/pg/pg_wal"]) Fixtures.diskOk
    Fixtures.compressors ["lz4"] "lz4"
  = (Some (NewUploader (Some "lz4-compressor") (Some "bucket-a")
             (Some "/var/lib/pg/pg_wal/walg_data") true), None).
Proof. reflexivity. Qed.

Example getDataFolderPath_pg_wal :
  getDataFolderPath Fixtures.settingsDeltaOn Fixtures.joinPlain
    (Fixtures.statOf ["/var/lib/pg/pg_wal"; "/var/lib/pg/pg_xlog"])
  = "/var/lib/pg/pg_wal/walg_data".
Proof. reflexivity. Qed.

Example getDataFolderPath_pg_xlog :
  getDataFolderPath Fixtures.settingsDeltaOn Fixtures.joinPlain
    (Fixtures.statOf ["/var/lib/pg/pg_xlog"])
  = "/var/lib/pg/pg_xlog/walg_data".
Proof. reflexivity. Qed.

Example getDataFolderPath_neither :
  getDataFolderPath Fixtures.settingsDeltaOn Fixtures.joinPlain (Fixtures.statOf [])
  = "/tmp/walg_data".
Proof. reflexivity. Qed.

Example getDataFolderPath_no_PGDATA :
  getDataFolderPath Fixtures.settingsDeltaMalformed Fixtures.joinPlain
    (Fixtures.statOf ["/var/lib/pg/pg_wal"])
  = "/tmp/walg_data".
Proof. reflexivity. Qed.

(** ** Rate limiters *)

Section LimiterFacts.

Variable settings : gmap string string.
Variable DatabasePageSize : Z.

Local Abbreviation limiters := (ConfigureLimiters settings DatabasePageSize).
Local Abbreviation burstConstant := (DefaultDataBurstRateLimit DatabasePageSize).

(** Once the disk setting parses, the disk limiter is stored, also when
    the network setting then fails to parse. *)
Lemma ConfigureLimiters_disk g R :
  GetSettingValue settings "WALG_DISK_RATE_LIMIT" ≠ "" →
  strconv.ParseInt (GetSettingValue settings "WALG_DISK_RATE_LIMIT") = (R, None) →
  DiskLimiter (limiters g).1
  = Some (NewLimiter (float64_of_int64 R) (add64 R burstConstant)).
Proof.
  intros Hne Hparse. unfold ConfigureLimiters.
  rewrite (bool_decide_true _ Hne), Hparse.
  case_bool_decide; [|reflexivity].
  destruct (strconv.ParseInt (GetSettingValue settings "WALG_NETWORK_RATE_LIMIT"))
    as [netLimit [e|]]; reflexivity.
Qed.

(** The network limiter is stored when the disk step did not fail. *)
Lemma ConfigureLimiters_network g R :
  GetSettingValue settings "WALG_DISK_RATE_LIMIT" = ""
  ∨ (strconv.ParseInt (GetSettingValue settings "WALG_DISK_RATE_LIMIT")).2 = None →
  GetSettingValue settings "WALG_NETWORK_RATE_LIMIT" ≠ "" →
  strconv.ParseInt (GetSettingValue settings "WALG_NETWORK_RATE_LIMIT") = (R, None) →
  (limiters g).2 = None
  ∧ NetworkLimiter (limiters g).1
    = Some (NewLimiter (float64_of_int64 R) (add64 R burstConstant)).
Proof.
  intros Hdisk Hne Hparse. unfold ConfigureLimiters.
  rewrite (bool_decide_true _ Hne), Hparse.
  case_bool_decide as Hd.
  - destruct Hdisk as [Hempty | Hok]; [done|].
    by destruct (strconv.ParseInt _) as [? [?|]].
  - done.
Qed.

(** A malformed disk setting ends [ConfigureLimiters] before the network
    setting is read. *)
Lemma ConfigureLimiters_disk_malformed g v e :
  GetSettingValue settings "WALG_DISK_RATE_LIMIT" ≠ "" →
  strconv.ParseInt (GetSettingValue settings "WALG_DISK_RATE_LIMIT") = (v, Some e) →
  limiters g = (g, Some (wrap e "failed to parse WALG_DISK_RATE_LIMIT")).
Proof.
  intros Hne Hparse. unfold ConfigureLimiters.
  by rewrite (bool_decide_true _ Hne), Hparse.
Qed.

(** Below the overflow threshold the burst is the rate plus the
    constant, hence at least the rate. *)
Lemma burst_in_range R :
  0 <= DatabasePageSize →
  strconv.MinInt64 <= R →
  R + burstConstant <= strconv.MaxInt64 →
  add64 R burstConstant = R + burstConstant ∧ R <= add64 R burstConstant.
Proof.
  unfold strconv.MinInt64, strconv.MaxInt64, DefaultDataBurstRateLimit, add64.
  intros Hps Hlo Hhi. rewrite wrap64_id; lia.
Qed.

Lemma ConfigureLimiters_disk_in_range g R :
  0 <= DatabasePageSize →
  GetSettingValue settings "WALG_DISK_RATE_LIMIT" ≠ "" →
  strconv.ParseInt (GetSettingValue settings "WALG_DISK_RATE_LIMIT") = (R, None) →
  R + burstConstant <= strconv.MaxInt64 →
  ∃ l, DiskLimiter (limiters g).1 = Some l
       ∧ limit l = float64_of_int64 R
       ∧ burst l = R + burstConstant ∧ R <= burst l.
Proof.
  intros Hps Hne Hparse Hhi.
  eexists. split; [by apply ConfigureLimiters_disk|]. simpl.
  pose proof (ParseInt_range _ _ Hparse) as [Hlo _].
  destruct (burst_in_range R Hps Hlo Hhi) as [Heq Hle]. auto.
Qed.

(** C6 at the largest rate that parses: the [int64] sum wraps around, so
    the disk limiter is built with a negative burst, which is neither
    the rate plus the constant nor at least the rate.  Its rate is the
    [float64] nearest to the parsed value, [2^63]. *)
Theorem ConfigureLimiters_burst_overflow g :
  0 < DatabasePageSize →
  burstConstant <= strconv.MaxInt64 →
  GetSettingValue settings "WALG_DISK_RATE_LIMIT" = "9223372036854775807" →
  ∃ l, DiskLimiter (limiters g).1 = Some l
       ∧ limit l = float64_of_int64 strconv.MaxInt64
       ∧ limit l = 2 ^ 63
       ∧ burst l = strconv.MaxInt64 + burstConstant - 2 ^ 64
       ∧ burst l < 0 < limit l
       ∧ burst l < strconv.MaxInt64.
Proof.
  intros Hps Hconst Hset.
  assert (DiskLimiter (limiters g).1
          = Some (NewLimiter (float64_of_int64 strconv.MaxInt64)
                    (add64 strconv.MaxInt64 burstConstant)))
    as ->.
  { apply ConfigureLimiters_disk; rewrite Hset; [done|reflexivity]. }
  eexists. split; [done|]. simpl. split; [done|].
  rewrite float64_of_int64_MaxInt64.
  unfold add64, strconv.MaxInt64, DefaultDataBurstRateLimit in *.
  rewrite wrap64_over by lia. lia.
Qed.

End LimiterFacts.

(** C6 at the page size 8192 with no limiter set beforehand. *)
Lemma ConfigureLimiters_burst_overflow_witness :
  ∃ l, DiskLimiter
         (ConfigureLimiters Fixtures.settingsMaxDiskRate Fixtures.pageSize
            Fixtures.noLimiters).1 = Some l
       ∧ limit l = float64_of_int64 strconv.MaxInt64
       ∧ limit l = 2 ^ 63
       ∧ burst l
         = strconv.MaxInt64 + DefaultDataBurstRateLimit Fixtures.pageSize - 2 ^ 64
       ∧ burst l < 0 < limit l
       ∧ burst l < strconv.MaxInt64.
Proof.
  apply (ConfigureLimiters_burst_overflow Fixtures.settingsMaxDiskRate
           Fixtures.pageSize Fixtures.noLimiters).
  - reflexivity.
  - vm_compute. discriminate.
  - reflexivity.
Defined.

Example ConfigureLimiters_max_rate :
  ConfigureLimiters Fixtures.settingsMaxDiskRate Fixtures.pageSize Fixtures.noLimiters
  = ({| DiskLimiter := Some (NewLimiter 9223372036854775808 (-9223372036854710273));
        NetworkLimiter := None |}, None).
Proof. reflexivity. Qed.

Example ConfigureLimiters_small_rates :
  ConfigureLimiters
    (<["WALG_DISK_RATE_LIMIT" := "1000"]> (<["WALG_NETWORK_RATE_LIMIT" := "-5"]> ∅))
    Fixtures.pageSize Fixtures.noLimiters
  = ({| DiskLimiter := Some (NewLimiter 1000 66536);
        NetworkLimiter := Some (NewLimiter (-5) 65531) |}, None).
Proof. reflexivity. Qed.

Example ConfigureLimiters_disk_malformed_ex :
  ConfigureLimiters
    (<["WALG_DISK_RATE_LIMIT" := "fast"]> (<["WALG_NETWORK_RATE_LIMIT" := "100"]> ∅))
    Fixtures.pageSize Fixtures.noLimiters
  = (Fixtures.noLimiters,
     Some (wrap (NumError "ParseInt" "fast" ErrSyntax)
                "failed to parse WALG_DISK_RATE_LIMIT")).
Proof. reflexivity. Qed.

(** ** Further properties of storage adapter resolution *)

Section FolderCoverage.

Context {Folder : Type}.
Variable settings : gmap string string.

(** Every registry either has no active adapter or splits at its first
    active one. *)
Lemma registry_split (adapters : list (StorageAdapter Folder)) :
  allSkipped settings adapters
  ∨ ∃ (skipped : list (StorageAdapter Folder)) adapter rest,
      adapters = (skipped ++ adapter :: rest)%list
      ∧ allSkipped settings skipped
      ∧ GetSettingValue settings (prefixName adapter) ≠ "".
Proof.
  induction adapters as [|a adapters IH].
  - left. constructor.
  - destruct (decide (GetSettingValue settings (prefixName a) = "")) as [Hempty|Hne].
    + destruct IH as [Hall | (skipped & adapter & rest & -> & Hall & Hne)].
      * left. by constructor.
      * right. exists (a :: skipped), adapter, rest.
        split; [done|]. split; [by constructor|done].
    + right. exists [], a, adapters. split; [done|]. split; [constructor|done].
Qed.

Lemma activate_calls (adapter : StorageAdapter Folder) :
  (activate settings adapter).2 ≠ [].
Proof.
  unfold activate.
  destruct (loadSettings adapter settings) as [? [?|]]; simpl;
    by destruct (preprocessorCall settings adapter).
Qed.

Lemma preprocessorCall_elem (adapter : StorageAdapter Folder) call :
  call ∈ preprocessorCall settings adapter →
  call = CallPrefixPreprocessor (prefixName adapter)
           (GetSettingValue settings (prefixName adapter)).
Proof.
  unfold preprocessorCall.
  destruct (prefixPreprocessor adapter); [|by intros ?%elem_of_nil].
  by rewrite list_elem_of_singleton.
Qed.

Lemma ConfigureFolder_split (skipped : list (StorageAdapter Folder)) adapter rest :
  allSkipped settings skipped →
  GetSettingValue settings (prefixName adapter) ≠ "" →
  ConfigureFolder settings (skipped ++ adapter :: rest) = activate settings adapter.
Proof.
  intros Hall Hne. unfold ConfigureFolder.
  rewrite ConfigureFolder_range_skip by done. by apply ConfigureFolder_range_hit.
Qed.

Lemma ConfigureFolder_all_skipped (StorageAdapters : list (StorageAdapter Folder)) :
  allSkipped settings StorageAdapters →
  ConfigureFolder settings StorageAdapters
  = ((None, Some (NewUnconfiguredStorageError (prefixName <$> StorageAdapters))), []).
Proof.
  intros Hall. unfold ConfigureFolder.
  rewrite <- (app_nil_r StorageAdapters) at 1.
  by rewrite ConfigureFolder_range_skip.
Qed.

(** X1: for every registry and settings source, [ConfigureFolder] has
    exactly two kinds of outcome: no adapter is active and the result is
    the unconfigured-storage error over all activation-setting names, or
    the registry splits at its first active adapter and the result is
    that adapter's activation. *)
Theorem ConfigureFolder_outcomes (StorageAdapters : list (StorageAdapter Folder)) :
  (allSkipped settings StorageAdapters
   ∧ ConfigureFolder settings StorageAdapters
     = ((None, Some (NewUnconfiguredStorageError (prefixName <$> StorageAdapters))),
        []))
  ∨ (∃ (skipped : list (StorageAdapter Folder)) adapter rest,
        StorageAdapters = (skipped ++ adapter :: rest)%list
        ∧ allSkipped settings skipped
        ∧ GetSettingValue settings (prefixName adapter) ≠ ""
        ∧ ConfigureFolder settings StorageAdapters = activate settings adapter).
Proof.
  destruct (registry_split StorageAdapters)
    as [Hall | (skipped & adapter & rest & -> & Hall & Hne)].
  - left. split; [done|]. by apply ConfigureFolder_all_skipped.
  - right. exists skipped, adapter, rest. repeat (split; [done|]).
    by apply ConfigureFolder_split.
Qed.

(** X2: [ConfigureFolder] runs no adapter code, neither a prefix
    preprocessor nor a settings loader nor a folder constructor, exactly
    when no adapter's activation setting is non-empty. *)
Theorem ConfigureFolder_calls (StorageAdapters : list (StorageAdapter Folder)) :
  (ConfigureFolder settings StorageAdapters).2 = []
  ↔ allSkipped settings StorageAdapters.
Proof.
  destruct (registry_split StorageAdapters)
    as [Hall | (skipped & adapter & rest & -> & Hall & Hne)].
  - by rewrite ConfigureFolder_all_skipped.
  - rewrite ConfigureFolder_split by done.
    split; [by intros ?%activate_calls|].
    intros [_ Hbad]%Forall_app. by inversion Hbad.
Qed.

(** X3: the folder constructor is called only with the settings its own
    loader returned without error, and with the activation value run
    through the adapter's prefix preprocessor when it has one. *)
Theorem ConfigureFolder_constructor_call
    (StorageAdapters : list (StorageAdapter Folder)) name prefix :
  CallConfigureFolder name prefix ∈ (ConfigureFolder settings StorageAdapters).2 →
  ∃ adapter adapterSettings,
    adapter ∈ StorageAdapters
    ∧ prefixName adapter = name
    ∧ loadSettings adapter settings = (adapterSettings, None)
    ∧ prefix = from_option (λ f, f (GetSettingValue settings name))
                 (GetSettingValue settings name) (prefixPreprocessor adapter)
    ∧ (ConfigureFolder settings StorageAdapters).1
      = configureFolder adapter prefix adapterSettings.
Proof.
  destruct (registry_split StorageAdapters)
    as [Hall | (skipped & adapter & rest & -> & Hall & Hne)].
  - rewrite ConfigureFolder_all_skipped by done. simpl. by intros ?%elem_of_nil.
  - rewrite ConfigureFolder_split by done. unfold activate.
    destruct (loadSettings adapter settings) as [adapterSettings [e|]] eqn:Hload;
      simpl.
    + rewrite elem_of_app, list_elem_of_singleton.
      by intros [?%preprocessorCall_elem|?].
    + rewrite elem_of_app, !elem_of_cons, elem_of_nil.
      intros [?%preprocessorCall_elem|[?|[[= -> ->]|[]]]]; [done..|].
      exists adapter, adapterSettings. split; [|done].
      apply elem_of_app. right. by left.
Qed.

End FolderCoverage.

(** X3 on the registry [A, B, C] with [B] and [C] active. *)
Lemma ConfigureFolder_constructor_call_witness :
  ∃ adapter adapterSettings,
    adapter ∈ Fixtures.registryABC
    ∧ prefixName adapter = "B_PREFIX"
    ∧ loadSettings adapter Fixtures.settingsBC = (adapterSettings, None)
    ∧ "//bucket-b"
      = from_option (λ f, f (GetSettingValue Fixtures.settingsBC "B_PREFIX"))
          (GetSettingValue Fixtures.settingsBC "B_PREFIX") (prefixPreprocessor adapter)
    ∧ (ConfigureFolder Fixtures.settingsBC Fixtures.registryABC).1
      = configureFolder adapter "//bucket-b" adapterSettings.
Proof.
  apply (ConfigureFolder_constructor_call Fixtures.settingsBC Fixtures.registryABC
           "B_PREFIX" "//bucket-b").
  vm_compute. do 2 right. left.
Defined.

(** ** Further properties of crypter resolution *)

Section CrypterCoverage.

Variable settings : gmap string string.

(** X4: [ConfigureCrypter] returns [nil] exactly when the passphrase is
    not set, or when neither the inline key nor the key-file path is set
    and the key-ring id is unset or empty. *)
Theorem ConfigureCrypter_nil_iff :
  ConfigureCrypter settings = None
  ↔ LookupValue settings "WALG_PGP_KEY_PASSPHRASE" = None
    ∨ (LookupValue settings "WALG_PGP_KEY" = None
       ∧ LookupValue settings "WALG_PGP_KEY_PATH" = None
       ∧ GetSettingValue settings "WALE_GPG_KEY_ID" = "").
Proof.
  unfold ConfigureCrypter.
  destruct (LookupValue settings "WALG_PGP_KEY_PASSPHRASE") as [p|];
    [|by split; [left|]].
  destruct (LookupValue settings "WALG_PGP_KEY") as [k|].
  { split; [discriminate|]. by intros [?|[? _]]. }
  destruct (LookupValue settings "WALG_PGP_KEY_PATH") as [f|].
  { split; [discriminate|]. by intros [?|(_ & ? & _)]. }
  case_bool_decide as Hid.
  - split; [discriminate|]. by intros [?|(_ & _ & ?)].
  - split; [|done]. intros _. right. repeat split.
    by destruct (decide (GetSettingValue settings "WALE_GPG_KEY_ID" = "")).
Qed.

(** X5: a Crypter that [ConfigureCrypter] returns carries the value of
    the passphrase setting, and one built from a key-ring id never has
    an empty id. *)
Theorem ConfigureCrypter_result c :
  ConfigureCrypter settings = Some c →
  LookupValue settings "WALG_PGP_KEY_PASSPHRASE" = Some (crypterPassphrase c)
  ∧ ∀ keyRingID passphrase,
      c = CrypterFromKeyRingID keyRingID passphrase →
      keyRingID ≠ ""
      ∧ LookupValue settings "WALE_GPG_KEY_ID" = Some keyRingID
      ∧ LookupValue settings "WALG_PGP_KEY" = None
      ∧ LookupValue settings "WALG_PGP_KEY_PATH" = None.
Proof.
  unfold ConfigureCrypter, GetSettingValue.
  destruct (LookupValue settings "WALG_PGP_KEY_PASSPHRASE") as [p|]; [|discriminate].
  destruct (LookupValue settings "WALG_PGP_KEY") as [k|].
  { intros [= <-]. split; [done|]. discriminate. }
  destruct (LookupValue settings "WALG_PGP_KEY_PATH") as [f|].
  { intros [= <-]. split; [done|]. discriminate. }
  case_bool_decide as Hid; [|discriminate].
  intros [= <-]. split; [done|]. intros ? ? [= <- <-].
  split; [done|].
  destruct (LookupValue settings "WALE_GPG_KEY_ID"); [done|]. by destruct Hid.
Qed.

(** X6: [ConfigureCrypter] reads four settings only: setting or removing
    any other setting does not change its result. *)
Theorem ConfigureCrypter_other_settings key :
  key ∉ crypterSettingNames →
  (∀ value, ConfigureCrypter (<[key := value]> settings) = ConfigureCrypter settings)
  ∧ ConfigureCrypter (delete key settings) = ConfigureCrypter settings.
Proof.
  unfold crypterSettingNames. rewrite !not_elem_of_cons.
  intros (Hp & Hk & Hf & Hr & _).
  unfold ConfigureCrypter, GetSettingValue, LookupValue. split.
  - intros value. by rewrite !lookup_insert_ne.
  - by rewrite !lookup_delete_ne.
Qed.

End CrypterCoverage.

(** X5 at settings with a passphrase and a key-ring id. *)
Lemma ConfigureCrypter_result_witness :
  LookupValue
    (<["WALG_PGP_KEY_PASSPHRASE" := "pw"]> (<["WALE_GPG_KEY_ID" := "ABCD"]> ∅))
    "WALG_PGP_KEY_PASSPHRASE"
  = Some "pw"
  ∧ "ABCD" ≠ "".
Proof.
  assert (ConfigureCrypter
            (<["WALG_PGP_KEY_PASSPHRASE" := "pw"]> (<["WALE_GPG_KEY_ID" := "ABCD"]> ∅))
          = Some (CrypterFromKeyRingID "ABCD" "pw")) as Hc by reflexivity.
  destruct (ConfigureCrypter_result _ _ Hc) as [Hpass Hring].
  split; [exact Hpass|]. exact (proj1 (Hring "ABCD" "pw" eq_refl)).
Defined.

(** X6 for the compression-method setting next to a full crypter
    configuration. *)
Lemma ConfigureCrypter_other_settings_witness :
  ConfigureCrypter (<["WALG_COMPRESSION_METHOD" := "lz4"]> Fixtures.emptyKeySettings)
  = ConfigureCrypter Fixtures.emptyKeySettings.
Proof.
  refine (proj1 (ConfigureCrypter_other_settings Fixtures.emptyKeySettings
                   "WALG_COMPRESSION_METHOD" _) "lz4").
  apply (bool_decide_unpack _). vm_compute. exact I.
Defined.

(** ** Boolean settings *)

Lemma spellings_disjoint str : str ∈ trueSpellings → str ∈ falseSpellings → False.
Proof.
  intros Ht Hf. unfold trueSpellings in Ht.
  repeat (apply elem_of_cons in Ht as [-> | Ht]); [..|by apply elem_of_nil in Ht];
    apply (bool_decide_pack _) in Hf; vm_compute in Hf; exact Hf.
Qed.

Lemma empty_not_true_spelling : "" ∉ trueSpellings.
Proof. apply (bool_decide_unpack _). vm_compute. exact I. Qed.

Lemma ParseBool_true_iff str :
  strconv.ParseBool str = (true, None) ↔ str ∈ trueSpellings.
Proof.
  unfold strconv.ParseBool. fold trueSpellings falseSpellings.
  repeat case_bool_decide; split; try done; discriminate.
Qed.

Lemma ParseBool_false_iff str :
  strconv.ParseBool str = (false, None) ↔ str ∈ falseSpellings.
Proof.
  unfold strconv.ParseBool. fold trueSpellings falseSpellings.
  repeat case_bool_decide; split; try done; try discriminate.
  intros ?. by destruct (spellings_disjoint str).
Qed.

Lemma ParseBool_error_iff str e :
  (strconv.ParseBool str).2 = Some e
  ↔ (str ∉ trueSpellings) ∧ (str ∉ falseSpellings)
    ∧ e = NumError "ParseBool" str ErrSyntax.
Proof.
  unfold strconv.ParseBool. fold trueSpellings falseSpellings.
  case_bool_decide as Ht; simpl.
  - split; [discriminate | by intros [? _]].
  - case_bool_decide as Hf; simpl.
    + split; [discriminate | by intros (_ & ? & _)].
    + split; [by intros [= <-] | by intros (_ & _ & ->)].
Qed.

Section BooleanSettings.

Variable settings : gmap string string.

Local Abbreviation value := (GetSettingValue settings "WALG_PREVENT_WAL_OVERWRITE").

(** X7: [ConfigurePreventWalOverwrite] returns true exactly on the six
    true spellings; it returns false without error exactly when the
    setting is unset, empty, or one of the six false spellings; and
    every other value gives the [ParseBool] syntax error, wrapped. *)
Theorem ConfigurePreventWalOverwrite_outcomes :
  (ConfigurePreventWalOverwrite settings = (true, None) ↔ value ∈ trueSpellings)
  ∧ (ConfigurePreventWalOverwrite settings = (false, None)
     ↔ value = "" ∨ value ∈ falseSpellings)
  ∧ (∀ e, (ConfigurePreventWalOverwrite settings).2 = Some e
          ↔ value ≠ "" ∧ (value ∉ trueSpellings) ∧ (value ∉ falseSpellings)
            ∧ e = wrap (NumError "ParseBool" value ErrSyntax)
                       "failed to parse WALG_PREVENT_WAL_OVERWRITE").
Proof.
  unfold ConfigurePreventWalOverwrite.
  case_bool_decide as Hne.
  - destruct (ParseBool_cases value) as [[b Hb] | Hb]; rewrite Hb; simpl.
    + split; [|split].
      * rewrite <- ParseBool_true_iff, Hb. split; by intros [= ->].
      * rewrite <- ParseBool_false_iff, Hb. split; [by intros [= ->]; right|].
        by intros [?|[= ->]].
      * intros e. split; [discriminate|]. intros (_ & Ht & Hf & _).
        destruct b.
        -- destruct Ht. by apply ParseBool_true_iff.
        -- destruct Hf. by apply ParseBool_false_iff.
    + assert (value ∉ trueSpellings) as Ht.
      { rewrite <- ParseBool_true_iff, Hb. discriminate. }
      assert (value ∉ falseSpellings) as Hf.
      { rewrite <- ParseBool_false_iff, Hb. discriminate. }
      split; [|split].
      * split; [discriminate|done].
      * split; [discriminate|]. by intros [?|?].
      * intros e. split; [by intros [= <-]|]. by intros (_ & _ & _ & ->).
  - rewrite Hne. split; [|split].
    + split; [discriminate|]. by intros ?%empty_not_true_spelling.
    + split; [by left|done].
    + intros e. split; [discriminate|]. by intros [? _].
Qed.

End BooleanSettings.

(** ** Further properties of delta usage *)

Section DeltaCoverage.

Context {DataFolder : Type}.
Variable settings : gmap string string.
Variable Join : string → string → string.
Variable Stat : string → option error.
Variable NewDiskDataFolder : string → option DataFolder * option error.

Local Abbreviation dataFolderPath := (getDataFolderPath settings Join Stat).
Local Abbreviation deltaUsage :=
  (configureWalDeltaUsage settings Join Stat NewDiskDataFolder).

(** X8: delta usage comes out enabled exactly when the use-delta setting
    is present with one of the six true spellings and the delta folder
    opens without error; the result then carries the opened folder and
    no error. *)
Theorem configureWalDeltaUsage_enabled_iff :
  (deltaUsage.1.1 = true
   ↔ ∃ useWalDeltaStr,
       LookupValue settings "WALG_USE_WAL_DELTA" = Some useWalDeltaStr
       ∧ useWalDeltaStr ∈ trueSpellings
       ∧ (NewDiskDataFolder dataFolderPath).2 = None)
  ∧ (deltaUsage.1.1 = true →
     deltaUsage = (true, (NewDiskDataFolder dataFolderPath).1, None)).
Proof.
  unfold configureWalDeltaUsage, configureWalDeltaUsage_folder.
  destruct (LookupValue settings "WALG_USE_WAL_DELTA") as [str|]; simpl.
  - destruct (ParseBool_cases str) as [[b Hb] | Hb]; rewrite Hb; simpl.
    + destruct b; simpl.
      * apply ParseBool_true_iff in Hb.
        destruct (NewDiskDataFolder dataFolderPath) as [d [e|]]; simpl.
        -- split; [|discriminate]. split; [discriminate|].
           by intros (? & _ & _ & ?).
        -- split; [|done]. split; [|done]. intros _. by exists str.
      * split; [|discriminate]. split; [discriminate|].
        intros (? & [= <-] & Ht & _). apply ParseBool_false_iff in Hb.
        by destruct (spellings_disjoint str).
    + split; [|discriminate]. split; [discriminate|].
      intros (? & [= <-] & Ht%ParseBool_true_iff & _). rewrite Hb in Ht. discriminate.
  - split; [|discriminate]. split; [discriminate|]. by intros (? & ? & _).
Qed.

End DeltaCoverage.

(** X9: when the use-delta setting is unset or is one of the six false
    spellings, [configureWalDeltaUsage] returns [(false, nil, nil)]
    whatever the path computation and the disk would do: the delta
    folder is not opened. *)
Theorem configureWalDeltaUsage_off (settings : gmap string string) :
  LookupValue settings "WALG_USE_WAL_DELTA" = None
  ∨ (∃ useWalDeltaStr,
        LookupValue settings "WALG_USE_WAL_DELTA" = Some useWalDeltaStr
        ∧ useWalDeltaStr ∈ falseSpellings) →
  ∀ (DataFolder : Type) Join Stat
    (NewDiskDataFolder : string → option DataFolder * option error),
    configureWalDeltaUsage settings Join Stat NewDiskDataFolder = (false, None, None).
Proof.
  intros Hoff DataFolder Join Stat NewDiskDataFolder.
  unfold configureWalDeltaUsage.
  destruct Hoff as [-> | (str & -> & Hf%ParseBool_false_iff)]; [done|].
  by rewrite Hf.
Qed.

(** X10: for the use-delta and log-level settings an empty value is not
    the same as no value.  Without the setting, delta usage is off
    without error and the log level is left alone; with the empty string
    as value, the delta step fails with the wrapped syntax error and the
    empty string is passed to [UpdateLogLevel]. *)
Theorem empty_value_is_read (settings : gmap string string) :
  (∀ (DataFolder : Type) Join Stat
     (NewDiskDataFolder : string → option DataFolder * option error),
      configureWalDeltaUsage (delete "WALG_USE_WAL_DELTA" settings)
        Join Stat NewDiskDataFolder
      = (false, None, None)
      ∧ configureWalDeltaUsage (<["WALG_USE_WAL_DELTA" := ""]> settings)
          Join Stat NewDiskDataFolder
        = (false, None,
           Some (wrap (NumError "ParseBool" "" ErrSyntax)
                      "failed to parse WALG_USE_WAL_DELTA")))
  ∧ (∀ UpdateLogLevel,
        ConfigureLogging (delete "WALG_LOG_LEVEL" settings) UpdateLogLevel = None
        ∧ ConfigureLogging (<["WALG_LOG_LEVEL" := ""]> settings) UpdateLogLevel
          = UpdateLogLevel "").
Proof.
  split.
  - intros DataFolder Join Stat NewDiskDataFolder.
    unfold configureWalDeltaUsage, LookupValue.
    by rewrite lookup_delete_eq, lookup_insert_eq.
  - intros UpdateLogLevel. unfold ConfigureLogging, LookupValue.
    by rewrite lookup_delete_eq, lookup_insert_eq.
Qed.

(** X9 at settings that spell the use-delta flag as false. *)
Lemma configureWalDeltaUsage_off_witness :
  configureWalDeltaUsage (<["WALG_USE_WAL_DELTA" := "False"]> Fixtures.settingsDeltaOn)
    Fixtures.joinPlain (Fixtures.statOf []) Fixtures.diskDenied
  = (false, None, None).
Proof.
  refine (configureWalDeltaUsage_off
            (<["WALG_USE_WAL_DELTA" := "False"]> Fixtures.settingsDeltaOn) _
            string Fixtures.joinPlain (Fixtures.statOf []) Fixtures.diskDenied).
  right. exists "False". split; [reflexivity|]. vm_compute.
  do 5 right. left.
Defined.

(** ** Empty values and absent settings *)

Lemma GetSettingValue_insert_empty (settings : gmap string string) key key' :
  GetSettingValue (<[key := ""]> settings) key'
  = GetSettingValue (delete key settings) key'.
Proof.
  unfold GetSettingValue, LookupValue.
  destruct (decide (key = key')) as [->|Hne].
  - by rewrite lookup_insert_eq, lookup_delete_eq.
  - by rewrite lookup_insert_ne, lookup_delete_ne.
Qed.

(** X11: for the rate limiters, the overwrite flag and the compression
    method, giving any setting the empty string as value has the same
    effect as removing that setting. *)
Theorem empty_value_is_unset (settings : gmap string string) key :
  (∀ DatabasePageSize g,
      ConfigureLimiters (<[key := ""]> settings) DatabasePageSize g
      = ConfigureLimiters (delete key settings) DatabasePageSize g)
  ∧ ConfigurePreventWalOverwrite (<[key := ""]> settings)
    = ConfigurePreventWalOverwrite (delete key settings)
  ∧ (∀ (Compressor : Type) (Compressors : gmap string Compressor)
       CompressingAlgorithms lz4_AlgorithmName,
        configureCompressor (<[key := ""]> settings) Compressors
          CompressingAlgorithms lz4_AlgorithmName
        = configureCompressor (delete key settings) Compressors
            CompressingAlgorithms lz4_AlgorithmName).
Proof.
  split; [|split].
  - intros. unfold ConfigureLimiters. by rewrite !GetSettingValue_insert_empty.
  - unfold ConfigurePreventWalOverwrite. by rewrite !GetSettingValue_insert_empty.
  - intros. unfold configureCompressor. by rewrite !GetSettingValue_insert_empty.
Qed.

(** ** Compressor selection and uploader assembly *)

Section UploaderCoverage.

Context {Folder Compressor DataFolder : Type}.
Variable settings : gmap string string.
Variable StorageAdapters : list (StorageAdapter Folder).
Variable Join : string → string → string.
Variable Stat : string → option error.
Variable NewDiskDataFolder : string → option DataFolder * option error.
Variable Compressors : gmap string Compressor.
Variable CompressingAlgorithms : list string.
Variable lz4_AlgorithmName : string.

Local Abbreviation deltaUsage :=
  (configureWalDeltaUsage settings Join Stat NewDiskDataFolder).
Local Abbreviation folder := (ConfigureFolder settings StorageAdapters).
Local Abbreviation compressor :=
  (configureCompressor settings Compressors CompressingAlgorithms lz4_AlgorithmName).
Local Abbreviation uploader :=
  (ConfigureUploader settings StorageAdapters Join Stat NewDiskDataFolder
     Compressors CompressingAlgorithms lz4_AlgorithmName).
Local Abbreviation unknownMethod :=
  (NewUnknownCompressionMethodError CompressingAlgorithms).

Lemma configureCompressor_cases :
  (∃ c, Compressors !! compressionMethodOf settings lz4_AlgorithmName = Some c
        ∧ compressor = (Some c, None))
  ∨ (Compressors !! compressionMethodOf settings lz4_AlgorithmName = None
     ∧ compressor = (None, Some unknownMethod)).
Proof.
  unfold configureCompressor, compressionMethodOf.
  destruct (Compressors !! _) as [c|]; eauto.
Qed.

(** X12: leaving the compression method unset selects the same
    compressor, or fails in the same way, as naming the default
    algorithm explicitly. *)
Theorem configureCompressor_default :
  configureCompressor (delete "WALG_COMPRESSION_METHOD" settings) Compressors
    CompressingAlgorithms lz4_AlgorithmName
  = configureCompressor (<["WALG_COMPRESSION_METHOD" := lz4_AlgorithmName]> settings)
      Compressors CompressingAlgorithms lz4_AlgorithmName.
Proof.
  unfold configureCompressor, GetSettingValue, LookupValue.
  rewrite lookup_delete_eq, lookup_insert_eq. simpl.
  by case_bool_decide as Hname; [rewrite Hname|].
Qed.

(** X13: [ConfigureUploader] has exactly four kinds of outcome.  It
    succeeds with an uploader made of the resolved folder, a compressor
    that is in the registry, and the delta step's folder and flag; or it
    returns no uploader and the wrapped error of the first failing step:
    the folder error, the unknown-method error listing the supported
    algorithms, or the syntax error of the use-delta setting. *)
Theorem ConfigureUploader_outcomes :
  (∃ f c,
      folder.1 = (f, None)
      ∧ Compressors !! compressionMethodOf settings lz4_AlgorithmName = Some c
      ∧ deltaUsage.2 = None
      ∧ uploader
        = (Some (NewUploader (Some c) f deltaUsage.1.2 deltaUsage.1.1), None))
  ∨ (∃ e,
        folder.1.2 = Some e
        ∧ uploader = (None, Some (wrap e "failed to configure folder")))
  ∨ (folder.1.2 = None
     ∧ Compressors !! compressionMethodOf settings lz4_AlgorithmName = None
     ∧ uploader
       = (None, Some (wrap unknownMethod "failed to configure compression")))
  ∨ (∃ useWalDeltaStr,
        folder.1.2 = None
        ∧ is_Some (Compressors !! compressionMethodOf settings lz4_AlgorithmName)
        ∧ LookupValue settings "WALG_USE_WAL_DELTA" = Some useWalDeltaStr
        ∧ (useWalDeltaStr ∉ trueSpellings) ∧ (useWalDeltaStr ∉ falseSpellings)
        ∧ uploader
          = (None,
             Some (wrap (wrap (NumError "ParseBool" useWalDeltaStr ErrSyntax)
                              "failed to parse WALG_USE_WAL_DELTA")
                        "failed to configure WAL Delta usage"))).
Proof.
  destruct (folder.1) as [f [e|]] eqn:Hfolder.
  { right. left. exists e. split; [done|].
    unfold ConfigureUploader. by rewrite Hfolder. }
  destruct configureCompressor_cases as [(c & Hreg & Hc) | (Hreg & Hc)].
  - destruct (deltaUsage.2) as [e|] eqn:Hdelta.
    + right. right. right.
      apply configureWalDeltaUsage_error in Hdelta as (str & Hset & Herr & ->).
      apply ParseBool_error_iff in Herr as (Ht & Hf & _).
      exists str. repeat (split; [done|]).
      rewrite (ConfigureUploader_after_folder_and_compressor _ _ _ _ _ _ _ _ _ _
                 Hfolder Hc).
      destruct deltaUsage as [[? ?] [e|]] eqn:Hd.
      * pose proof (proj1 (configureWalDeltaUsage_error settings Join Stat
                             NewDiskDataFolder e)) as He.
        rewrite Hd in He. destruct (He eq_refl) as (str' & Hset' & _ & ->).
        rewrite Hset in Hset'. by injection Hset' as <-.
      * pose proof (proj2 (configureWalDeltaUsage_error settings Join Stat
                             NewDiskDataFolder _)
                      (ex_intro _ str (conj Hset (conj
                         (proj2 (ParseBool_error_iff str _)
                            (conj Ht (conj Hf eq_refl))) eq_refl)))) as He.
        rewrite Hd in He. discriminate.
    + left. exists f, c. repeat (split; [done|]).
      rewrite (ConfigureUploader_after_folder_and_compressor _ _ _ _ _ _ _ _ _ _
                 Hfolder Hc).
      by destruct deltaUsage as [[? ?] [?|]].
  - right. right. left. repeat (split; [done|]).
    unfold ConfigureUploader. by rewrite Hfolder, Hc.
Qed.

(** X14: when no adapter's activation setting is non-empty,
    [ConfigureUploader] returns no uploader and the unconfigured-storage
    error over all activation-setting names, wrapped as a folder
    failure, whatever the compression and delta settings are;
    [errors.Cause] recovers the unconfigured-storage error. *)
Theorem ConfigureUploader_unconfigured :
  allSkipped settings StorageAdapters →
  uploader
  = (None,
     Some (wrap (NewUnconfiguredStorageError (prefixName <$> StorageAdapters))
                "failed to configure folder"))
  ∧ (∀ e, uploader.2 = Some e →
          Cause e = NewUnconfiguredStorageError (prefixName <$> StorageAdapters)).
Proof.
  intros Hall.
  assert (uploader
          = (None,
             Some (wrap (NewUnconfiguredStorageError (prefixName <$> StorageAdapters))
                        "failed to configure folder"))) as ->.
  { unfold ConfigureUploader. by rewrite ConfigureFolder_all_skipped. }
  split; [done|]. by intros ? [= <-].
Qed.

End UploaderCoverage.

(** X14 on the registry [A, B, C] with no activation setting usable. *)
Lemma ConfigureUploader_unconfigured_witness :
  ConfigureUploader Fixtures.settingsNone Fixtures.registryABC
    Fixtures.joinPlain (Fixtures.statOf []) Fixtures.diskOk
    Fixtures.compressors ["lz4"] "lz4"
  = (None,
     Some (wrap (NewUnconfiguredStorageError ["A_PREFIX"; "B_PREFIX"; "C_PREFIX"])
                "failed to configure folder")).
Proof.
  refine (proj1 (ConfigureUploader_unconfigured Fixtures.settingsNone
                   Fixtures.registryABC Fixtures.joinPlain (Fixtures.statOf [])
                   Fixtures.diskOk Fixtures.compressors ["lz4"] "lz4" _)).
  repeat constructor.
Defined.

(** ** Further properties of the rate limiters *)

Section LimiterCoverage.

Variable settings : gmap string string.
Variable DatabasePageSize : Z.

Local Abbreviation limiters := (ConfigureLimiters settings DatabasePageSize).
Local Abbreviation burstConstant := (DefaultDataBurstRateLimit DatabasePageSize).
Local Abbreviation diskLimitStr := (GetSettingValue settings "WALG_DISK_RATE_LIMIT").
Local Abbreviation netLimitStr := (GetSettingValue settings "WALG_NETWORK_RATE_LIMIT").

Local Ltac limiter_cases :=
  unfold ConfigureLimiters;
  repeat case_bool_decide;
  repeat match goal with
    | |- context [strconv.ParseInt ?s] =>
        let e := fresh "e" in
        destruct (strconv.ParseInt s) as [? [e|]] eqn:?
    end;
  simpl in *.

(** X15: [ConfigureLimiters] fails exactly when a non-empty rate setting
    does not parse; the error is the parse error wrapped with the name
    of the offending setting, and a disk failure takes precedence: the
    network setting is then not examined. *)
Theorem ConfigureLimiters_errors g e :
  (limiters g).2 = Some e
  ↔ (diskLimitStr ≠ ""
     ∧ ∃ cause, (strconv.ParseInt diskLimitStr).2 = Some cause
                ∧ e = wrap cause "failed to parse WALG_DISK_RATE_LIMIT")
    ∨ ((diskLimitStr = "" ∨ (strconv.ParseInt diskLimitStr).2 = None)
       ∧ netLimitStr ≠ ""
       ∧ ∃ cause, (strconv.ParseInt netLimitStr).2 = Some cause
                  ∧ e = wrap cause "failed to parse WALG_NETWORK_RATE_LIMIT").
Proof.
  limiter_cases; split;
    try discriminate;
    try (intros [= <-]; eauto 10);
    intros [(? & ? & ? & ?) | ([?|?] & ? & ? & ? & ?)];
    congruence.
Qed.

(** X16: a malformed network setting is reported after the disk limiter
    has been replaced: the error is returned together with a state in
    which the new disk limiter is installed and the network limiter is
    the old one. *)
Theorem ConfigureLimiters_partial_update g R v cause :
  diskLimitStr ≠ "" →
  strconv.ParseInt diskLimitStr = (R, None) →
  netLimitStr ≠ "" →
  strconv.ParseInt netLimitStr = (v, Some cause) →
  limiters g
  = ({| DiskLimiter := Some (NewLimiter (float64_of_int64 R) (add64 R burstConstant));
        NetworkLimiter := NetworkLimiter g |},
     Some (wrap cause "failed to parse WALG_NETWORK_RATE_LIMIT")).
Proof.
  intros Hd Hdisk Hn Hnet. unfold ConfigureLimiters.
  by rewrite (bool_decide_true _ Hd), Hdisk, (bool_decide_true _ Hn), Hnet.
Qed.

(** X17: [ConfigureLimiters] is idempotent: running it again on the
    state it produced gives the same state and the same error. *)
Theorem ConfigureLimiters_idempotent g :
  ConfigureLimiters settings DatabasePageSize
    (ConfigureLimiters settings DatabasePageSize g).1
  = ConfigureLimiters settings DatabasePageSize g.
Proof. limiter_cases; reflexivity. Qed.

(** X18: a limiter is only ever installed or replaced, never removed:
    an empty or absent setting leaves the corresponding limiter as it
    was, a limiter that was set stays set, and a failure on the disk
    setting leaves the whole state as it was. *)
Theorem ConfigureLimiters_frame g :
  (diskLimitStr = "" → DiskLimiter (limiters g).1 = DiskLimiter g)
  ∧ (netLimitStr = "" → NetworkLimiter (limiters g).1 = NetworkLimiter g)
  ∧ (is_Some (DiskLimiter g) → is_Some (DiskLimiter (limiters g).1))
  ∧ (is_Some (NetworkLimiter g) → is_Some (NetworkLimiter (limiters g).1))
  ∧ (diskLimitStr ≠ "" → is_Some (strconv.ParseInt diskLimitStr).2 →
     (limiters g).1 = g).
Proof.
  limiter_cases; repeat split; try done; eauto;
    try (by intros ? [? [=]]); by intros [=].
Qed.

(** X19: below the overflow threshold both limiters get a burst of
    exactly the parsed rate plus eight pages, which is at least the
    parsed rate, and as rate the [float64] nearest to the parsed rate:
    the parsed rate itself up to [2^53] in magnitude, and never more
    than [2^10] away from it.  This covers negative rates, which are
    accepted. *)
Theorem ConfigureLimiters_in_range g :
  0 <= DatabasePageSize →
  (limiters g).2 = None →
  (∀ R, diskLimitStr ≠ "" →
        strconv.ParseInt diskLimitStr = (R, None) →
        R + burstConstant <= strconv.MaxInt64 →
        DiskLimiter (limiters g).1
        = Some (NewLimiter (float64_of_int64 R) (R + burstConstant))
        ∧ R <= R + burstConstant
        ∧ Z.abs (float64_of_int64 R - R) <= 2 ^ 10
        ∧ (Z.abs R <= 2 ^ 53 → float64_of_int64 R = R))
  ∧ (∀ R, netLimitStr ≠ "" →
          strconv.ParseInt netLimitStr = (R, None) →
          R + burstConstant <= strconv.MaxInt64 →
          NetworkLimiter (limiters g).1
          = Some (NewLimiter (float64_of_int64 R) (R + burstConstant))
          ∧ R <= R + burstConstant
          ∧ Z.abs (float64_of_int64 R - R) <= 2 ^ 10
          ∧ (Z.abs R <= 2 ^ 53 → float64_of_int64 R = R)).
Proof.
  intros Hps Hok. split; intros R Hne Hparse Hhi.
  - rewrite (ConfigureLimiters_disk _ _ _ _ Hne Hparse).
    pose proof (ParseInt_range _ _ Hparse) as Hrange.
    destruct (burst_in_range DatabasePageSize R Hps (proj1 Hrange) Hhi) as [-> Hle].
    split; [done|].
    split; [unfold DefaultDataBurstRateLimit; lia|].
    split; [by apply float64_of_int64_error|apply float64_of_int64_exact].
  - assert (diskLimitStr = "" ∨ (strconv.ParseInt diskLimitStr).2 = None) as Hdisk.
    { destruct (decide (diskLimitStr = "")) as [?|Hd]; [by left|right].
      destruct (strconv.ParseInt diskLimitStr) as [v [cause|]] eqn:Hp; [|done].
      rewrite (ConfigureLimiters_disk_malformed _ _ _ _ _ Hd Hp) in Hok.
      discriminate. }
    destruct (ConfigureLimiters_network _ DatabasePageSize g R Hdisk Hne Hparse)
      as [_ ->].
    pose proof (ParseInt_range _ _ Hparse) as Hrange.
    destruct (burst_in_range DatabasePageSize R Hps (proj1 Hrange) Hhi) as [-> Hle].
    split; [done|].
    split; [unfold DefaultDataBurstRateLimit; lia|].
    split; [by apply float64_of_int64_error|apply float64_of_int64_exact].
Qed.

End LimiterCoverage.

(** X16 with a disk rate of 1000 and a network rate that is not a
    number. *)
Lemma ConfigureLimiters_partial_update_witness :
  ConfigureLimiters
    (<["WALG_DISK_RATE_LIMIT" := "1000"]> (<["WALG_NETWORK_RATE_LIMIT" := "fast"]> ∅))
    Fixtures.pageSize Fixtures.noLimiters
  = ({| DiskLimiter := Some (NewLimiter 1000 66536); NetworkLimiter := None |},
     Some (wrap (NumError "ParseInt" "fast" ErrSyntax)
                "failed to parse WALG_NETWORK_RATE_LIMIT")).
Proof.
  refine (ConfigureLimiters_partial_update
            (<["WALG_DISK_RATE_LIMIT" := "1000"]>
               (<["WALG_NETWORK_RATE_LIMIT" := "fast"]> ∅))
            Fixtures.pageSize Fixtures.noLimiters 1000 0
            (NumError "ParseInt" "fast" ErrSyntax) _ _ _ _).
  - vm_compute. discriminate.
  - reflexivity.
  - vm_compute. discriminate.
  - reflexivity.
Defined.

(** X19 with a negative disk rate and a network rate of 100. *)
Lemma ConfigureLimiters_in_range_witness :
  DiskLimiter
    (ConfigureLimiters
       (<["WALG_DISK_RATE_LIMIT" := "-5"]> (<["WALG_NETWORK_RATE_LIMIT" := "100"]> ∅))
       Fixtures.pageSize Fixtures.noLimiters).1
  = Some (NewLimiter (float64_of_int64 (-5))
            (-5 + DefaultDataBurstRateLimit Fixtures.pageSize))
  ∧ float64_of_int64 (-5) = -5.
Proof.
  destruct (proj1 (ConfigureLimiters_in_range
                     (<["WALG_DISK_RATE_LIMIT" := "-5"]>
                        (<["WALG_NETWORK_RATE_LIMIT" := "100"]> ∅))
                     Fixtures.pageSize Fixtures.noLimiters
                     ltac:(vm_compute; discriminate) eq_refl)
              (-5) ltac:(vm_compute; discriminate) eq_refl
              ltac:(vm_compute; discriminate))
    as (Hdisk & _ & _ & Hexact).
  split; [exact Hdisk|]. apply Hexact. vm_compute. discriminate.
Defined.

(** ** What a returned uploader guarantees *)

Section UploaderInvariants.

Context {Folder Compressor DataFolder : Type}.
Variable settings : gmap string string.
Variable StorageAdapters : list (StorageAdapter Folder).
Variable Join : string → string → string.
Variable Stat : string → option error.
Variable NewDiskDataFolder : string → option DataFolder * option error.
Variable Compressors : gmap string Compressor.
Variable CompressingAlgorithms : list string.
Variable lz4_AlgorithmName : string.

Local Abbreviation dataFolderPath := (getDataFolderPath settings Join Stat).
Local Abbreviation deltaUsage :=
  (configureWalDeltaUsage settings Join Stat NewDiskDataFolder).
Local Abbreviation uploader :=
  (ConfigureUploader settings StorageAdapters Join Stat NewDiskDataFolder
     Compressors CompressingAlgorithms lz4_AlgorithmName).

Lemma configureWalDeltaUsage_true d err :
  deltaUsage = (true, d, err) →
  err = None ∧ NewDiskDataFolder dataFolderPath = (d, None).
Proof.
  unfold configureWalDeltaUsage, configureWalDeltaUsage_folder.
  destruct (LookupValue settings "WALG_USE_WAL_DELTA") as [str|]; simpl;
    [|discriminate].
  destruct (strconv.ParseBool str) as [[|] [e|]]; simpl; try discriminate.
  destruct (NewDiskDataFolder dataFolderPath) as [d' [e|]]; [discriminate|].
  by intros [= <- <-].
Qed.

Lemma ConfigureFolder_success f :
  (ConfigureFolder settings StorageAdapters).1 = (f, None) →
  ∃ (skipped : list (StorageAdapter Folder)) adapter rest adapterSettings,
    StorageAdapters = (skipped ++ adapter :: rest)%list
    ∧ allSkipped settings skipped
    ∧ GetSettingValue settings (prefixName adapter) ≠ ""
    ∧ loadSettings adapter settings = (adapterSettings, None)
    ∧ configureFolder adapter (activationPrefix settings adapter) adapterSettings
      = (f, None).
Proof.
  destruct (registry_split settings StorageAdapters)
    as [Hall | (skipped & adapter & rest & -> & Hall & Hne)].
  - rewrite ConfigureFolder_all_skipped by done. discriminate.
  - rewrite ConfigureFolder_split by done. unfold activate.
    destruct (loadSettings adapter settings) as [adapterSettings [e|]] eqn:Hload;
      simpl; [discriminate|].
    intros Hf. by exists skipped, adapter, rest, adapterSettings.
Qed.

(** X20: an uploader that [ConfigureUploader] returns holds the folder
    that the first active adapter of the registry constructed without
    error from its own loaded settings, a compressor that is registered
    under the selected method name, and, when its delta flag is set, the
    delta folder that was opened without error at the computed path. *)
Theorem ConfigureUploader_result u :
  uploader.1 = Some u →
  uploader.2 = None
  ∧ (∃ (skipped : list (StorageAdapter Folder)) adapter rest adapterSettings,
        StorageAdapters = (skipped ++ adapter :: rest)%list
        ∧ allSkipped settings skipped
        ∧ GetSettingValue settings (prefixName adapter) ≠ ""
        ∧ loadSettings adapter settings = (adapterSettings, None)
        ∧ configureFolder adapter (activationPrefix settings adapter) adapterSettings
          = (UploaderFolder u, None))
  ∧ is_Some (UploaderCompressor u)
  ∧ UploaderCompressor u
    = Compressors !! compressionMethodOf settings lz4_AlgorithmName
  ∧ (UploaderUseWalDelta u = true →
     NewDiskDataFolder dataFolderPath = (UploaderDeltaDataFolder u, None)).
Proof.
  unfold ConfigureUploader.
  destruct (ConfigureFolder settings StorageAdapters).1 as [f [e|]] eqn:Hfolder;
    [discriminate|].
  destruct (configureCompressor_cases settings Compressors CompressingAlgorithms
              lz4_AlgorithmName) as [(c & Hreg & ->) | (_ & ->)]; [|discriminate].
  destruct deltaUsage as [[flag d] [e|]] eqn:Hdelta; [discriminate|].
  simpl. intros [= <-]. simpl.
  split; [done|]. split; [by apply ConfigureFolder_success|].
  split; [by eexists|]. split; [done|].
  intros ->. by apply configureWalDeltaUsage_true in Hdelta as [_ ?].
Qed.

End UploaderInvariants.

(** X20 with adapter [A] active and delta usage switched on. *)
Lemma ConfigureUploader_result_witness :
  Fixtures.diskOk
    (getDataFolderPath Fixtures.settingsDeltaOn Fixtures.joinPlain
       (Fixtures.statOf ["/var/lib/pg/pg_wal"]))
  = (Some "/var/lib/pg/pg_wal/walg_data", None).
Proof.
  assert ((ConfigureUploader Fixtures.settingsDeltaOn Fixtures.registryABC
             Fixtures.joinPlain (Fixtures.statOf ["/var/lib/pg/pg_wal"])
             Fixtures.diskOk Fixtures.compressors ["lz4"] "lz4").1
          = Some (NewUploader (Some "lz4-compressor") (Some "bucket-a")
                    (Some "/var/lib/pg/pg_wal/walg_data") true)) as Hup
    by reflexivity.
  destruct (ConfigureUploader_result _ _ _ _ _ _ _ _ _ Hup)
    as (_ & _ & _ & _ & Hdelta).
  exact (Hdelta eq_refl).
Defined.

(** ** What the delta folder path depends on *)

(** X21: [getDataFolderPath] looks at the file system only through
    whether [os.Stat] fails on [PGDATA/pg_wal] and, when it does, on
    [PGDATA/pg_xlog]: two file systems that agree there give the same
    path, whatever errors they report and whatever else they hold. *)
Theorem getDataFolderPath_probes (settings : gmap string string)
    (Join : string → string → string) (Stat Stat' : string → option error) :
  (∀ pgdata,
      LookupValue settings "PGDATA" = Some pgdata →
      pathExists Stat (Join pgdata "pg_wal") = pathExists Stat' (Join pgdata "pg_wal")
      ∧ (pathExists Stat (Join pgdata "pg_wal") = false →
         pathExists Stat (Join pgdata "pg_xlog")
         = pathExists Stat' (Join pgdata "pg_xlog"))) →
  getDataFolderPath settings Join Stat = getDataFolderPath settings Join Stat'.
Proof.
  intros Hagree. unfold getDataFolderPath.
  destruct (LookupValue settings "PGDATA") as [pgdata|]; [|done].
  destruct (Hagree pgdata eq_refl) as [Hwal Hxlog]. unfold pathExists in *.
  destruct (Stat (Join pgdata "pg_wal")), (Stat' (Join pgdata "pg_wal"));
    try discriminate; [|done].
  specialize (Hxlog eq_refl).
  by destruct (Stat (Join pgdata "pg_xlog")), (Stat' (Join pgdata "pg_xlog")).
Qed.

(** X21 on two file systems that both hold [pg_wal] and differ on
    [pg_xlog]. *)
Lemma getDataFolderPath_probes_witness :
  getDataFolderPath Fixtures.settingsDeltaOn Fixtures.joinPlain
    (Fixtures.statOf ["/var/lib/pg/pg_wal"])
  = getDataFolderPath Fixtures.settingsDeltaOn Fixtures.joinPlain
      (Fixtures.statOf ["/var/lib/pg/pg_wal"; "/var/lib/pg/pg_xlog"; "/etc"]).
Proof.
  apply getDataFolderPath_probes.
  intros pgdata Hpg. vm_compute in Hpg. injection Hpg as <-.
  split; [reflexivity|]. vm_compute. discriminate.
Defined.
